(** * alfred-golinks: a shallow embedding of [go.py]

    The script filter takes a query, derives a cache key, fetches (or reuses)
    the list of go links from the search API, and renders it as Alfred items.

    Python text is modelled as a list of Unicode code points, byte strings as
    lists of byte values, integers as [Z], JSON floats as IEEE binary64
    ([PrimFloat.float]).  Effects (filesystem, cache store, network, the
    workflow's item list) are threaded through an explicit state-and-exception
    monad. *)

From Stdlib Require Import List NArith ZArith String Ascii Bool Lia Floats.
From Stdlib Require Import DecimalString.
From stdpp Require Import gmap.
Import ListNotations.

Local Open Scope N_scope.

(** ** Text *)

(** A Python 2 [unicode] object: its code points. *)
Abbreviation ustring := (list N).

(** A Python 2 [str] object: its bytes, each below 256. *)
Abbreviation bytes := (list N).

(** [basestring]: what [unicodify], [asciify] and [_hash] accept. *)
Inductive basestring :=
| PyUnicode (u : ustring)
| PyStr (b : bytes).

(** ASCII literals of the source, as code points. *)
Fixpoint lit (s : string) : ustring :=
  match s with
  | EmptyString => []
  | String a r => N_of_ascii a :: lit r
  end.

Definition in_range (lo hi c : N) : bool := (lo <=? c) && (c <=? hi).

Module Char.
Definition dash : N := 45.
Definition amp : N := 38.
Definition semicolon : N := 59.
Definition hash : N := 35.
Definition slash : N := 47.
Definition underscore : N := 95.
Definition dot : N := 46.

Definition is_ascii (c : N) : bool := c <? 128.
Definition is_lower (c : N) : bool := in_range 97 122 c.
Definition is_upper (c : N) : bool := in_range 65 90 c.
Definition is_digit (c : N) : bool := in_range 48 57 c.
Definition is_hex (c : N) : bool :=
  is_digit c || in_range 97 102 c || in_range 65 70 c.
(** [\w] of [re] without the UNICODE or LOCALE flag. *)
Definition is_word (c : N) : bool :=
  is_lower c || is_upper c || is_digit c || (c =? underscore).

(** [unicode.isspace] for one character (Python 2.7, Unicode 5.2). *)
Definition is_space (c : N) : bool :=
  in_range 9 13 c || in_range 28 32 c || (c =? 133) || (c =? 160)
  || (c =? 5760) || (c =? 6158) || in_range 8192 8202 c
  || (c =? 8232) || (c =? 8233) || (c =? 8239) || (c =? 8287)
  || (c =? 12288).

(** [lower()] on an ASCII character. *)
Definition to_lower (c : N) : N := if is_upper c then c + 32 else c.
End Char.

(** ** UTF-8 *)

(** [u.encode('utf-8')], one code point at a time. *)
Definition utf8_encode_char (c : N) : bytes :=
  if c <? 128 then [c]
  else if c <? 2048 then
    [N.lor 192 (N.shiftr c 6); N.lor 128 (N.land c 63)]
  else if c <? 65536 then
    [N.lor 224 (N.shiftr c 12); N.lor 128 (N.land (N.shiftr c 6) 63);
     N.lor 128 (N.land c 63)]
  else
    [N.lor 240 (N.shiftr c 18); N.lor 128 (N.land (N.shiftr c 12) 63);
     N.lor 128 (N.land (N.shiftr c 6) 63); N.lor 128 (N.land c 63)].

Definition utf8_encode (u : ustring) : bytes := flat_map utf8_encode_char u.

Definition is_cont (b : N) : bool := in_range 128 191 b.
Definition cont_bits (b : N) : N := N.land b 63.

(** [s.decode('utf-8', 'replace')], as CPython 2.7 decodes: the lead byte
    gives the length of the sequence (0xC2-0xDF two bytes, 0xE0-0xEF three,
    0xF0-0xF4 four, anything else is no lead byte); an overlong three- or
    four-byte form and a value beyond U+10FFFF are rejected, a surrogate is
    accepted.  An error yields one U+FFFD for the lead byte and the
    continuation bytes that follow it within the sequence, up to the first
    byte that is not one, and decoding resumes there. *)
Fixpoint utf8_decode (b : bytes) : ustring :=
  match b with
  | [] => []
  | b0 :: r0 =>
    if b0 <? 128 then b0 :: utf8_decode r0
    else if in_range 194 223 b0 then
      match r0 with
      | b1 :: r1 =>
        if is_cont b1
        then N.shiftl (N.land b0 31) 6 + cont_bits b1 :: utf8_decode r1
        else 65533 :: utf8_decode r0
      | [] => [65533]
      end
    else if in_range 224 239 b0 then
      match r0 with
      | b1 :: r1 =>
        match r1 with
        | b2 :: r2 =>
          if is_cont b1 && is_cont b2 && negb ((b0 =? 224) && (b1 <? 160))
          then N.shiftl (N.land b0 15) 12 + N.shiftl (cont_bits b1) 6
               + cont_bits b2 :: utf8_decode r2
          else 65533 :: (if is_cont b1 then utf8_decode r1 else utf8_decode r0)
        | [] => 65533 :: (if is_cont b1 then [] else utf8_decode r0)
        end
      | [] => [65533]
      end
    else if in_range 240 244 b0 then
      match r0 with
      | b1 :: r1 =>
        match r1 with
        | b2 :: r2 =>
          match r2 with
          | b3 :: r3 =>
            if is_cont b1 && is_cont b2 && is_cont b3
               && negb ((b0 =? 240) && (b1 <? 144))
               && negb ((b0 =? 244) && (143 <? b1))
            then N.shiftl (N.land b0 7) 18 + N.shiftl (cont_bits b1) 12
                 + N.shiftl (cont_bits b2) 6 + cont_bits b3 :: utf8_decode r3
            else 65533 :: (if is_cont b1
                           then if is_cont b2 then utf8_decode r2 else utf8_decode r1
                           else utf8_decode r0)
          | [] => 65533 :: (if is_cont b1
                            then if is_cont b2 then [] else utf8_decode r1
                            else utf8_decode r0)
          end
        | [] => 65533 :: (if is_cont b1 then [] else utf8_decode r0)
        end
      | [] => [65533]
      end
    else 65533 :: utf8_decode r0
  end.

(** ** MD5 (RFC 1321), as [hashlib.md5] computes it *)

Module MD5.
Definition mask32 : N := 0xffffffff.
Definition add32 (a b : N) : N := N.land (a + b) mask32.
Definition not32 (a : N) : N := N.lxor a mask32.
Definition rotl32 (x s : N) : N :=
  N.lor (N.land (N.shiftl x s) mask32) (N.shiftr x (32 - s)).

Definition K : list N :=
  [ 0xd76aa478; 0xe8c7b756; 0x242070db; 0xc1bdceee;
    0xf57c0faf; 0x4787c62a; 0xa8304613; 0xfd469501;
    0x698098d8; 0x8b44f7af; 0xffff5bb1; 0x895cd7be;
    0x6b901122; 0xfd987193; 0xa679438e; 0x49b40821;
    0xf61e2562; 0xc040b340; 0x265e5a51; 0xe9b6c7aa;
    0xd62f105d; 0x02441453; 0xd8a1e681; 0xe7d3fbc8;
    0x21e1cde6; 0xc33707d6; 0xf4d50d87; 0x455a14ed;
    0xa9e3e905; 0xfcefa3f8; 0x676f02d9; 0x8d2a4c8a;
    0xfffa3942; 0x8771f681; 0x6d9d6122; 0xfde5380c;
    0xa4beea44; 0x4bdecfa9; 0xf6bb4b60; 0xbebfbc70;
    0x289b7ec6; 0xeaa127fa; 0xd4ef3085; 0x04881d05;
    0xd9d4d039; 0xe6db99e5; 0x1fa27cf8; 0xc4ac5665;
    0xf4292244; 0x432aff97; 0xab9423a7; 0xfc93a039;
    0x655b59c3; 0x8f0ccc92; 0xffeff47d; 0x85845dd1;
    0x6fa87e4f; 0xfe2ce6e0; 0xa3014314; 0x4e0811a1;
    0xf7537e82; 0xbd3af235; 0x2ad7d2bb; 0xeb86d391 ].

Definition shifts : list N :=
  [ 7; 12; 17; 22; 7; 12; 17; 22; 7; 12; 17; 22; 7; 12; 17; 22;
    5; 9; 14; 20; 5; 9; 14; 20; 5; 9; 14; 20; 5; 9; 14; 20;
    4; 11; 16; 23; 4; 11; 16; 23; 4; 11; 16; 23; 4; 11; 16; 23;
    6; 10; 15; 21; 6; 10; 15; 21; 6; 10; 15; 21; 6; 10; 15; 21 ].

(** Words and byte strings are little-endian. *)
Fixpoint le_bytes (n : nat) (x : N) : bytes :=
  match n with
  | O => []
  | S n' => N.land x 255 :: le_bytes n' (N.shiftr x 8)
  end.

Fixpoint le_word (b : bytes) : N :=
  match b with
  | [] => 0
  | x :: r => x + 256 * le_word r
  end.

Fixpoint words (n : nat) (b : bytes) : list N :=
  match n with
  | O => []
  | S n' => le_word (firstn 4 b) :: words n' (skipn 4 b)
  end.

Definition pad (msg : bytes) : bytes :=
  let len := N.of_nat (List.length msg) in
  let zeros := N.to_nat ((119 - len mod 64) mod 64) in
  msg ++ [128] ++ repeat 0 zeros ++ le_bytes 8 (N.land (8 * len) 0xffffffffffffffff).

Record state := State { sa : N; sb : N; sc : N; sd : N }.

Definition init : state :=
  State 0x67452301 0xefcdab89 0x98badcfe 0x10325476.

Definition round (M : list N) (st : state) (i : nat) : state :=
  let '(State a b c d) := st in
  let i' := N.of_nat i in
  let '(f, g) :=
    if i' <? 16 then (N.lor (N.land b c) (N.land (not32 b) d), i')
    else if i' <? 32 then
      (N.lor (N.land d b) (N.land (not32 d) c), (5 * i' + 1) mod 16)
    else if i' <? 48 then (N.lxor b (N.lxor c d), (3 * i' + 5) mod 16)
    else (N.lxor c (N.lor b (not32 d)), (7 * i') mod 16) in
  let f' := add32 (add32 (add32 f a) (nth i K 0)) (nth (N.to_nat g) M 0) in
  State d (add32 b (rotl32 f' (nth i shifts 0))) b c.

Definition compress (st : state) (block : bytes) : state :=
  let r := fold_left (round (words 16 block)) (seq 0 64) st in
  State (add32 (sa st) (sa r)) (add32 (sb st) (sb r))
        (add32 (sc st) (sc r)) (add32 (sd st) (sd r)).

Fixpoint blocks (fuel : nat) (st : state) (msg : bytes) : state :=
  match fuel, msg with
  | S fuel', _ :: _ => blocks fuel' (compress st (firstn 64 msg)) (skipn 64 msg)
  | _, _ => st
  end.

Definition digest (msg : bytes) : bytes :=
  let p := pad msg in
  let st := blocks (List.length p) init p in
  le_bytes 4 (sa st) ++ le_bytes 4 (sb st) ++ le_bytes 4 (sc st)
  ++ le_bytes 4 (sd st).

Definition hex_digit (n : N) : N := if n <? 10 then 48 + n else 87 + n.

Definition hex_byte (b : N) : ustring :=
  [hex_digit (N.shiftr (N.land b 255) 4); hex_digit (N.land b 15)].

(** [hashlib.md5(s).hexdigest()] *)
Definition hexdigest (msg : bytes) : ustring := flat_map hex_byte (digest msg).
End MD5.

(** ** Python values and exceptions *)

(** What [r.json()] can return. *)
#[warnings="-register-all"] Inductive pyval :=
| PNone
| PBool (b : bool)
| PInt (n : Z)
| PFloat (f : float)
| PStr (s : ustring)
| PList (l : list pyval)
| PDict (d : list (ustring * pyval)).

Inductive exn :=
| HTTPError (code : Z)
| URLError
| OSError
| ValueError
| KeyError (key : ustring)
| TypeError
| OverflowError
| UnicodeEncodeError.

(** A computation that returns or raises. *)
Definition result (A : Type) : Type := exn + A.

Definition raise {A} (e : exn) : result A := inl e.

Definition rbind {A B} (r : result A) (k : A -> result B) : result B :=
  match r with
  | inl e => inl e
  | inr a => k a
  end.

Fixpoint rmap {A B} (f : A -> result B) (l : list A) : result (list B) :=
  match l with
  | [] => inr []
  | x :: r =>
    rbind (f x) (fun y => rbind (rmap f r) (fun ys => inr (y :: ys)))
  end.

Fixpoint ustring_eqb (a b : ustring) : bool :=
  match a, b with
  | [], [] => true
  | x :: a', y :: b' => (x =? y) && ustring_eqb a' b'
  | _, _ => false
  end.

(** Truth value of a Python object, as [not data] tests it. *)
Definition truthy (v : pyval) : bool :=
  match v with
  | PNone => false
  | PBool b => b
  | PInt n => negb (n =? 0)%Z
  | PFloat f => negb (PrimFloat.eqb f 0%float)
  | PStr s => negb (Nat.eqb (List.length s) 0)
  | PList l => negb (Nat.eqb (List.length l) 0)
  | PDict d => negb (Nat.eqb (List.length d) 0)
  end.

Fixpoint dict_get (d : list (ustring * pyval)) (k : ustring) : option pyval :=
  match d with
  | [] => None
  | (k', v) :: r => if ustring_eqb k' k then Some v else dict_get r k
  end.

(** [obj[key]] with a string key. *)
Definition getitem (obj : pyval) (key : ustring) : result pyval :=
  match obj with
  | PDict d =>
    match dict_get d key with
    | Some v => inr v
    | None => raise (KeyError key)
    end
  | _ => raise TypeError
  end.

(** The elements a [for] loop or comprehension sees. *)
Definition py_iter (v : pyval) : result (list pyval) :=
  match v with
  | PList l => inr l
  | PDict d => inr (map (fun kv => PStr (fst kv)) d)
  | PStr s => inr (map (fun c => PStr [c]) s)
  | _ => raise TypeError
  end.

(** Truncation of a binary64 toward zero; [None] for infinities and NaN. *)
Definition float_trunc (f : float) : option Z :=
  match Prim2SF f with
  | S754_zero _ => Some 0%Z
  | S754_finite s m e =>
    let a := if (0 <=? e)%Z then Z.shiftl (Z.pos m) e
             else Z.shiftr (Z.pos m) (- e) in
    Some (if s then (- a)%Z else a)
  | _ => None
  end.

(** ** HTML entities: [HTMLParser.unescape] *)

Module Html.
(** [htmlentitydefs.name2codepoint]. *)
Definition name2codepoint : list (string * N) :=
  [
  ("quot", 34); ("amp", 38); ("lt", 60); ("gt", 62); ("nbsp", 160);
  ("iexcl", 161); ("cent", 162); ("pound", 163); ("curren", 164);
  ("yen", 165); ("brvbar", 166); ("sect", 167); ("uml", 168);
  ("copy", 169); ("ordf", 170); ("laquo", 171); ("not", 172); ("shy", 173);
  ("reg", 174); ("macr", 175); ("deg", 176); ("plusmn", 177);
  ("sup2", 178); ("sup3", 179); ("acute", 180); ("micro", 181);
  ("para", 182); ("middot", 183); ("cedil", 184); ("sup1", 185);
  ("ordm", 186); ("raquo", 187); ("frac14", 188); ("frac12", 189);
  ("frac34", 190); ("iquest", 191); ("Agrave", 192); ("Aacute", 193);
  ("Acirc", 194); ("Atilde", 195); ("Auml", 196); ("Aring", 197);
  ("AElig", 198); ("Ccedil", 199); ("Egrave", 200); ("Eacute", 201);
  ("Ecirc", 202); ("Euml", 203); ("Igrave", 204); ("Iacute", 205);
  ("Icirc", 206); ("Iuml", 207); ("ETH", 208); ("Ntilde", 209);
  ("Ograve", 210); ("Oacute", 211); ("Ocirc", 212); ("Otilde", 213);
  ("Ouml", 214); ("times", 215); ("Oslash", 216); ("Ugrave", 217);
  ("Uacute", 218); ("Ucirc", 219); ("Uuml", 220); ("Yacute", 221);
  ("THORN", 222); ("szlig", 223); ("agrave", 224); ("aacute", 225);
  ("acirc", 226); ("atilde", 227); ("auml", 228); ("aring", 229);
  ("aelig", 230); ("ccedil", 231); ("egrave", 232); ("eacute", 233);
  ("ecirc", 234); ("euml", 235); ("igrave", 236); ("iacute", 237);
  ("icirc", 238); ("iuml", 239); ("eth", 240); ("ntilde", 241);
  ("ograve", 242); ("oacute", 243); ("ocirc", 244); ("otilde", 245);
  ("ouml", 246); ("divide", 247); ("oslash", 248); ("ugrave", 249);
  ("uacute", 250); ("ucirc", 251); ("uuml", 252); ("yacute", 253);
  ("thorn", 254); ("yuml", 255); ("OElig", 338); ("oelig", 339);
  ("Scaron", 352); ("scaron", 353); ("Yuml", 376); ("fnof", 402);
  ("circ", 710); ("tilde", 732); ("Alpha", 913); ("Beta", 914);
  ("Gamma", 915); ("Delta", 916); ("Epsilon", 917); ("Zeta", 918);
  ("Eta", 919); ("Theta", 920); ("Iota", 921); ("Kappa", 922);
  ("Lambda", 923); ("Mu", 924); ("Nu", 925); ("Xi", 926); ("Omicron", 927);
  ("Pi", 928); ("Rho", 929); ("Sigma", 931); ("Tau", 932);
  ("Upsilon", 933); ("Phi", 934); ("Chi", 935); ("Psi", 936);
  ("Omega", 937); ("alpha", 945); ("beta", 946); ("gamma", 947);
  ("delta", 948); ("epsilon", 949); ("zeta", 950); ("eta", 951);
  ("theta", 952); ("iota", 953); ("kappa", 954); ("lambda", 955);
  ("mu", 956); ("nu", 957); ("xi", 958); ("omicron", 959); ("pi", 960);
  ("rho", 961); ("sigmaf", 962); ("sigma", 963); ("tau", 964);
  ("upsilon", 965); ("phi", 966); ("chi", 967); ("psi", 968);
  ("omega", 969); ("thetasym", 977); ("upsih", 978); ("piv", 982);
  ("ensp", 8194); ("emsp", 8195); ("thinsp", 8201); ("zwnj", 8204);
  ("zwj", 8205); ("lrm", 8206); ("rlm", 8207); ("ndash", 8211);
  ("mdash", 8212); ("lsquo", 8216); ("rsquo", 8217); ("sbquo", 8218);
  ("ldquo", 8220); ("rdquo", 8221); ("bdquo", 8222); ("dagger", 8224);
  ("Dagger", 8225); ("bull", 8226); ("hellip", 8230); ("permil", 8240);
  ("prime", 8242); ("Prime", 8243); ("lsaquo", 8249); ("rsaquo", 8250);
  ("oline", 8254); ("frasl", 8260); ("euro", 8364); ("image", 8465);
  ("weierp", 8472); ("real", 8476); ("trade", 8482); ("alefsym", 8501);
  ("larr", 8592); ("uarr", 8593); ("rarr", 8594); ("darr", 8595);
  ("harr", 8596); ("crarr", 8629); ("lArr", 8656); ("uArr", 8657);
  ("rArr", 8658); ("dArr", 8659); ("hArr", 8660); ("forall", 8704);
  ("part", 8706); ("exist", 8707); ("empty", 8709); ("nabla", 8711);
  ("isin", 8712); ("notin", 8713); ("ni", 8715); ("prod", 8719);
  ("sum", 8721); ("minus", 8722); ("lowast", 8727); ("radic", 8730);
  ("prop", 8733); ("infin", 8734); ("ang", 8736); ("and", 8743);
  ("or", 8744); ("cap", 8745); ("cup", 8746); ("int", 8747);
  ("there4", 8756); ("sim", 8764); ("cong", 8773); ("asymp", 8776);
  ("ne", 8800); ("equiv", 8801); ("le", 8804); ("ge", 8805); ("sub", 8834);
  ("sup", 8835); ("nsub", 8836); ("sube", 8838); ("supe", 8839);
  ("oplus", 8853); ("otimes", 8855); ("perp", 8869); ("sdot", 8901);
  ("lceil", 8968); ("rceil", 8969); ("lfloor", 8970); ("rfloor", 8971);
  ("lang", 9001); ("rang", 9002); ("loz", 9674); ("spades", 9824);
  ("clubs", 9827); ("hearts", 9829); ("diams", 9830)    ]%string.

(** [HTMLParser.entitydefs]: [apos] and the HTML 4 names. *)
Fixpoint lookup_name (t : list (string * N)) (name : ustring) : option N :=
  match t with
  | [] => None
  | (n, c) :: r => if ustring_eqb (lit n) name then Some c else lookup_name r name
  end.

Definition entitydefs (name : ustring) : option N :=
  if ustring_eqb name (lit "apos") then Some 39
  else lookup_name name2codepoint name.

Definition is_x (c : N) : bool := (c =? 120) || (c =? 88).

Definition digit_value (c : N) : N :=
  if Char.is_digit c then c - 48
  else if in_range 97 102 c then c - 87
  else c - 55.

Definition of_digits (base : N) (s : ustring) : N :=
  fold_left (fun acc c => base * acc + digit_value c) s 0.

(** [int(s)] on text made of word characters. *)
Definition int10 (s : ustring) : option N :=
  match s with
  | [] => None
  | _ => if forallb Char.is_digit s then Some (of_digits 10 s) else None
  end.

(** [int(s, 16)] on text made of word characters; a [0x] prefix is
    accepted when a hexadecimal digit follows it. *)
Definition int16 (s : ustring) : option N :=
  let body :=
    match s with
    | 48 :: x :: d :: r => if is_x x && Char.is_hex d then d :: r else s
    | _ => s
    end in
  match body with
  | [] => None
  | _ => if forallb Char.is_hex body then Some (of_digits 16 body) else None
  end.

(** What [#?[xX]?(?:[0-9a-fA-F]+|\w{1,8})] accepts as a whole. *)
Definition alt (s : ustring) : bool :=
  match s with
  | [] => false
  | _ => forallb Char.is_hex s
         || (forallb Char.is_word s && (List.length s <=? 8)%nat)
  end.

Definition opt_x (s : ustring) : bool :=
  alt s || match s with
           | x :: r => is_x x && alt r
           | [] => false
           end.

Definition group_ok (t : ustring) : bool :=
  match t with
  | c :: r => if c =? Char.hash then opt_x r else opt_x t
  | [] => false
  end.

Fixpoint take_group (s : ustring) : ustring :=
  match s with
  | c :: r => if Char.is_word c || (c =? Char.hash) then c :: take_group r else []
  | [] => []
  end.

(** The group of a match of [&(...);] that starts right after an ['&']. *)
Definition match_entity (after_amp : ustring) : option ustring :=
  let t := take_group after_amp in
  match skipn (List.length t) after_amp with
  | c :: _ => if (c =? Char.semicolon) && group_ok t then Some t else None
  | [] => None
  end.

(** [unichr] takes its argument as a C [int]. *)
Definition INT_MAX : N := 2147483647.

Section Unescape.
(** [sys.maxunicode] of the interpreter: 0xFFFF or 0x10FFFF. *)
Variable maxunicode : N.

(** [unichr(c)]: a character, [ValueError] out of range, [OverflowError]
    beyond a C [int]. *)
Definition unichr (c : N) : result N :=
  if c <=? maxunicode then inr c
  else if c <=? INT_MAX then raise ValueError
  else raise OverflowError.

Definition numeric (s : ustring) (c : option N) : result ustring :=
  match c with
  | None => inr ([Char.amp; Char.hash] ++ s ++ [Char.semicolon])
  | Some c =>
    match unichr c with
    | inr ch => inr [ch]
    | inl ValueError => inr ([Char.amp; Char.hash] ++ s ++ [Char.semicolon])
    | inl e => inl e
    end
  end.

Definition replaceEntities (t : ustring) : result ustring :=
  match t with
  | [] => inr [Char.amp; Char.semicolon]
  | c :: s =>
    if c =? Char.hash then
      match s with
      | x :: r => if is_x x then numeric s (int16 r) else numeric s (int10 s)
      | [] => numeric s None
      end
    else
      match entitydefs t with
      | Some ch => inr [ch]
      | None => inr ([Char.amp] ++ t ++ [Char.semicolon])
      end
  end.

(** [re.sub(pattern, replaceEntities, s)]: scan left to right; [skip]
    counts the characters of the current match still to be passed. *)
Fixpoint sub_entities (skip : nat) (s : ustring) : result ustring :=
  match s with
  | [] => inr []
  | c :: r =>
    match skip with
    | S k => sub_entities k r
    | O =>
      if c =? Char.amp then
        match match_entity r with
        | Some t =>
          rbind (replaceEntities t) (fun rep =>
          rbind (sub_entities (S (List.length t)) r) (fun rest =>
          inr (rep ++ rest)))
        | None => rbind (sub_entities 0 r) (fun rest => inr (c :: rest))
        end
      else rbind (sub_entities 0 r) (fun rest => inr (c :: rest))
    end
  end.

Definition has_amp (s : ustring) : bool := existsb (N.eqb Char.amp) s.

Definition is_amp_str (v : pyval) : bool :=
  match v with
  | PStr [c] => c =? Char.amp
  | _ => false
  end.

(** [h.unescape(s)] on whatever the record holds: text is rewritten; a
    list or dict passes the [in] test and is returned as it is unless it
    holds ['&'] (then [re.sub] rejects it). *)
Definition unescape (v : pyval) : result pyval :=
  match v with
  | PStr s =>
    if negb (has_amp s) then inr v
    else rbind (sub_entities 0 s) (fun s' => inr (PStr s'))
  | PList l => if existsb is_amp_str l then raise TypeError else inr v
  | PDict d =>
    if existsb (fun kv => ustring_eqb (fst kv) [Char.amp]) d
    then raise TypeError else inr v
  | _ => raise TypeError
  end.
End Unescape.
End Html.

(** ** Records of the workflow *)

(** [Answer = namedtuple('Answer', 'shortname link clicks')].  The two text
    fields hold whatever [h.unescape] returned. *)
Record Answer := mkAnswer { shortname : pyval; link : pyval; clicks : Z }.

(** What [get_answers] returns: [{}] for a falsy payload, else the list. *)
Inductive answers :=
| EmptyDict
| AnswerList (l : list Answer).

(** The elements of [for a in answers]. *)
Definition answers_iter (a : answers) : list Answer :=
  match a with
  | EmptyDict => []
  | AnswerList l => l
  end.

Record Request := mkRequest {
  req_url : ustring;
  req_params : list (ustring * pyval);
  req_headers : list (ustring * ustring)
}.

(** A [web.Response]: the status and the parsed body ([None] when the body is
    not JSON). *)
Record Response := mkResponse { status_code : Z; json_body : option pyval }.

(** A feedback item, the keyword arguments of [wf.add_item]. *)
Record Item := mkItem {
  title : pyval;
  subtitle : ustring;
  arg : option ustring;
  autocomplete : option ustring;
  uid : option pyval;
  valid : bool;
  icon : option ustring
}.

(** What the script reads from its surroundings: the interpreter and library
    functions it calls, its configuration, and the remote API. *)
Record Env := mkEnv {
  (** [unicodedata.normalize('NFD', u)] *)
  normalize_NFD : ustring -> ustring;
  (** [int(s)] on text; [None] is [ValueError] *)
  int_of_text : ustring -> option Z;
  (** [str(v)] of a value that is not text *)
  py_str : pyval -> ustring;
  (** [sys.maxunicode] *)
  maxunicode : N;
  (** module constants read from the process environment *)
  API_URL : ustring;
  MAX_RESULTS : Z;
  CACHE_MAX_AGE : Z;
  (** [wf.cachedir], and whether [os.makedirs] may create a directory *)
  cachedir : ustring;
  makedirs_ok : ustring -> bool;
  (** [wf.version], [wf.update_available], [workflow.ICON_WARNING] *)
  wf_version : ustring;
  update_available : bool;
  ICON_WARNING : ustring;
  (** the remote end of [web.get] *)
  server : Request -> result Response
}.

(** The mutable surroundings of one run. *)
Record World := mkWorld {
  (** directories that exist *)
  dirs : gset ustring;
  (** the cache store: key to write time and data *)
  cache : gmap ustring (Z * answers);
  (** the clock, in seconds *)
  now : Z;
  (** requests issued so far *)
  requests : list Request;
  (** [wf._items] *)
  items : list Item;
  (** what [wf.send_feedback] wrote *)
  feedback : option (list Item)
}.

Definition set_dirs (d : gset ustring) (w : World) : World :=
  mkWorld d (cache w) (now w) (requests w) (items w) (feedback w).
Definition set_cache (c : gmap ustring (Z * answers)) (w : World) : World :=
  mkWorld (dirs w) c (now w) (requests w) (items w) (feedback w).
Definition set_requests (r : list Request) (w : World) : World :=
  mkWorld (dirs w) (cache w) (now w) r (items w) (feedback w).
Definition set_items (i : list Item) (w : World) : World :=
  mkWorld (dirs w) (cache w) (now w) (requests w) i (feedback w).
Definition set_feedback (f : option (list Item)) (w : World) : World :=
  mkWorld (dirs w) (cache w) (now w) (requests w) (items w) f.

(** ** The monad of the script: state and exceptions *)

Definition M (A : Type) : Type := World -> result A * World.

Definition ret {A} (a : A) : M A := fun w => (inr a, w).

Definition throw {A} (e : exn) : M A := fun w => (inl e, w).

Definition bind {A B} (c : M A) (k : A -> M B) : M B :=
  fun w =>
    match c w with
    | (inl e, w') => (inl e, w')
    | (inr a, w') => k a w'
    end.

Definition lift {A} (r : result A) : M A := fun w => (r, w).

Declare Scope py_scope.
Delimit Scope py_scope with py.
Notation "x <- c ;; k" := (bind c (fun x => k))
  (at level 100, c at next level, right associativity) : py_scope.
Notation "c ;;; k" := (bind c (fun _ => k))
  (at level 100, right associativity) : py_scope.
Notation "x <~ r ;; k" := (rbind r (fun x => k))
  (at level 100, r at next level, right associativity) : py_scope.

(** [for x in l: body(x)] *)
Fixpoint for_each {A} (l : list A) (body : A -> M unit) : M unit :=
  match l with
  | [] => ret tt
  | x :: r => bind (body x) (fun _ => for_each r body)
  end.

(** ** Sorting: [list.sort(key=...)] *)

(** [list.sort] is stable; insertion from the right places an element before
    the first one whose key is not smaller. *)
Section Sort.
Context {A K : Type} (le : K -> K -> bool) (key : A -> K).

Fixpoint insert_by (x : A) (l : list A) : list A :=
  match l with
  | [] => [x]
  | y :: r => if le (key x) (key y) then x :: l else y :: insert_by x r
  end.

Fixpoint sort_by (l : list A) : list A :=
  match l with
  | [] => []
  | x :: r => insert_by x (sort_by r)
  end.
End Sort.

(** [False <= True] on Python booleans. *)
Definition bool_le (a b : bool) : bool := implb a b.

(** ** Paths *)

Definition starts_with_slash (p : ustring) : bool :=
  match p with
  | c :: _ => c =? Char.slash
  | [] => false
  end.

(** [os.path.join(a, b)] *)
Definition path_join (a b : ustring) : ustring :=
  if starts_with_slash b then b
  else match rev a with
       | [] => b
       | c :: _ => if c =? Char.slash then a ++ b else a ++ [Char.slash] ++ b
       end.

Fixpoint drop_slashes (p : ustring) : ustring :=
  match p with
  | c :: r => if c =? Char.slash then drop_slashes r else p
  | [] => []
  end.

Fixpoint drop_to_slash (p : ustring) : ustring :=
  match p with
  | c :: r => if c =? Char.slash then p else drop_to_slash r
  | [] => []
  end.

(** [os.path.dirname(p)] *)
Definition dirname (p : ustring) : ustring :=
  let head := rev (drop_to_slash (rev p)) in
  if forallb (N.eqb Char.slash) head then head
  else rev (drop_slashes (rev head)).

(** ** go.py *)

Definition ICON_UPDATE : ustring := lit "update-available.png".
Definition HELP_URL : ustring := lit "https://github.com/jasantunes/alfred-golinks".

(** ['Alfred-Golinks/{version} ({url})'.format(version=..., url=...)] *)
Definition USER_AGENT (version url : ustring) : ustring :=
  lit "Alfred-Golinks/" ++ version ++ lit " (" ++ url ++ lit ")".

(** The class [[^a-z0-9-_;\.]] negated: the characters that are kept. *)
Definition key_char (c : N) : bool :=
  Char.is_lower c || Char.is_digit c || (c =? Char.dash)
  || (c =? Char.underscore) || (c =? Char.semicolon) || (c =? Char.dot).

(** [re.sub(r'[^a-z0-9-_;\.]', '-', key)] *)
Definition sanitize (key : ustring) : ustring :=
  map (fun c => if key_char c then c else Char.dash) key.

(** [re.sub(r'-+', '-', key)] *)
Fixpoint collapse (key : ustring) : ustring :=
  match key with
  | [] => []
  | c :: r =>
    if c =? Char.dash then
      match r with
      | d :: _ => if d =? Char.dash then collapse r else c :: collapse r
      | [] => [c]
      end
    else c :: collapse r
  end.

(** [key.lower()], on the ASCII text [asciify] returns. *)
Definition lower (key : ustring) : ustring := map Char.to_lower key.

(** [u.strip()] *)
Fixpoint lstrip (u : ustring) : ustring :=
  match u with
  | c :: r => if Char.is_space c then lstrip r else u
  | [] => []
  end.

Definition strip (u : ustring) : ustring := rev (lstrip (rev (lstrip u))).

(** Decimal text of an integer, as [format] and [str] print it. *)
Definition dec (z : Z) : ustring := lit (NilZero.string_of_int (Z.to_int z)).

Section Golinks.
Variable E : Env.

Local Open Scope py_scope.

Definition unicodify (s : basestring) : ustring :=
  match s with
  | PyUnicode u => u
  | PyStr b => utf8_decode b
  end.

Definition asciify (s : basestring) : ustring :=
  let u := normalize_NFD E (unicodify s) in
  (* u.encode('us-ascii', 'ignore') *)
  let s := List.filter Char.is_ascii u in
  unicodify (PyStr s).

Definition _hash (s : basestring) : ustring :=
  let s := match s with
           | PyUnicode u => utf8_encode u
           | PyStr b => b
           end in
  firstn 12 (MD5.hexdigest s).

(** Lines 116 to 121 of [cache_key]: the key itself. *)
Definition cache_key_text (query : basestring) : ustring :=
  let key := query in
  let h := _hash key in
  let key := asciify key in
  let key := lower key in
  let key := sanitize key ++ [Char.dash] ++ h in
  lit "search/" ++ collapse key.

(** [wf.cachefile(name)] *)
Definition cachefile (name : ustring) : ustring := path_join (cachedir E) name.

(** [os.makedirs(path)] *)
Definition makedirs (path : ustring) : M unit :=
  fun w =>
    if makedirs_ok E path then (inr tt, set_dirs (dirs w ∪ {[ path ]}) w)
    else (inl OSError, w).

(** [os.path.exists(path)] *)
Definition path_exists (path : ustring) : M bool :=
  fun w => (inr (bool_decide (path ∈ dirs w)), w).

Definition cache_key (query : basestring) : M ustring :=
  let key := cache_key_text query in
  let dirpath := dirname (cachefile key) in
  ex <- path_exists dirpath ;;
  (if negb ex then makedirs dirpath else ret tt) ;;;
  ret key.

(** [web.get(url, params, headers=headers)]: the request goes out and the
    remote end answers or the connection fails. *)
Definition web_get (url : ustring) (params : list (ustring * pyval))
           (headers : list (ustring * ustring)) : M Response :=
  fun w =>
    let rq := mkRequest url params headers in
    (server E rq, set_requests (requests w ++ [rq]) w).

(** Modelled from the spec: [Response.raise_for_status] of the workflow
    library, which is not part of go.py; any status outside 2xx is an
    error (sections 4.3 and 7). *)
Definition raise_for_status (r : Response) : M unit :=
  if ((200 <=? status_code r) && (status_code r <? 300))%Z then ret tt
  else throw (HTTPError (status_code r)).

(** [r.json()]: a malformed body raises. *)
Definition json (r : Response) : M pyval :=
  match json_body r with
  | Some v => ret v
  | None => throw ValueError
  end.

Definition get_url (url : ustring) (params : list (ustring * pyval)) : M Response :=
  let headers := [(lit "User-Agent", USER_AGENT (wf_version E) HELP_URL)] in
  r <- web_get url params headers ;;
  raise_for_status r ;;;
  ret r.

Definition api_call (url : ustring) (params : list (ustring * pyval)) : M pyval :=
  r <- get_url url params ;;
  data <- json r ;;
  ret data.

(** [int(v)] *)
Definition py_int (v : pyval) : result Z :=
  match v with
  | PInt n => inr n
  | PBool b => inr (if b then 1 else 0)%Z
  | PFloat f =>
    match float_trunc f with
    | Some n => inr n
    | None => if PrimFloat.eqb f f then raise OverflowError else raise ValueError
    end
  | PStr s =>
    match int_of_text E s with
    | Some n => inr n
    | None => raise ValueError
    end
  | _ => raise TypeError
  end.

Definition unescape : pyval -> result pyval := Html.unescape (maxunicode E).

Definition handle_answer (api_dict : pyval) : result Answer :=
  sn <~ getitem api_dict (lit "shortname") ;;
  sn <~ unescape sn ;;
  url <~ getitem api_dict (lit "url") ;;
  url <~ unescape url ;;
  c <~ getitem api_dict (lit "clicks") ;;
  c <~ py_int c ;;
  inr (mkAnswer sn url c).

(** [lambda a: not a.clicks] *)
Definition sort_key (a : Answer) : bool := (clicks a =? 0)%Z.

Definition get_answers (query : ustring) (limit : Z) : M answers :=
  let params := [(lit "short_name", PStr query); (lit "limit", PInt limit)] in
  data <- api_call (API_URL E) params ;;
  if negb (truthy data) then ret EmptyDict
  else
    sites <- lift (getitem data (lit "sites")) ;;
    ds <- lift (py_iter sites) ;;
    answers <- lift (rmap handle_answer ds) ;;
    ret (AnswerList (sort_by bool_le sort_key answers)).

(** [wf.add_item(...)] *)
Definition add_item (it : Item) : M unit :=
  fun w => (inr tt, set_items (items w ++ [it]) w).

(** Modelled from the spec: [wf.warn_empty] of the workflow library, which
    is not part of go.py.  It receives only the two texts, so what it finds
    empty is the workflow's own item list: the advisory is added when no
    item was added before (section 6 lists the update advisory and the
    empty advisory as alternatives). *)
Definition warn_empty (title subtitle : ustring) : M unit :=
  fun w =>
    match items w with
    | [] => add_item (mkItem (PStr title) subtitle None None None false
                             (Some (ICON_WARNING E))) w
    | _ :: _ => (inr tt, w)
    end.

(** [wf.send_feedback()] *)
Definition send_feedback : M unit :=
  fun w => (inr tt, set_feedback (Some (items w)) w).

(** [wf.cache_data(name, data)] *)
Definition cache_data (name : ustring) (data : answers) : M unit :=
  fun w => (inr tt, set_cache (<[ name := (now w, data) ]> (cache w)) w).

(** Modelled from the spec: [wf.cached_data] and the cache store of the
    workflow library, which are not part of go.py.  An entry is valid only
    while [now - write_timestamp < max_age]; otherwise it is treated as
    absent, regenerated with [data_func] and written with the current
    time (section 3, CacheEntry, and section 4.5 step 2). *)
Definition cached_data (name : ustring) (data_func : M answers) (max_age : Z)
  : M answers :=
  fun w =>
    let regenerate :=
      (data <- data_func ;;
       cache_data name data ;;;
       ret data) in
    match cache w !! name with
    | Some (written, data) =>
      if (now w - written <? max_age)%Z then (inr data, w) else regenerate w
    | None => regenerate w
    end.

(** One field of [str.format]: text must encode to ASCII. *)
Definition format_field (v : pyval) : result ustring :=
  match v with
  | PStr s => if forallb Char.is_ascii s then inr s else raise UnicodeEncodeError
  | _ => inr (py_str E v)
  end.

(** The keyword arguments of the [wf.add_item] call in the loop. *)
Definition answer_item (a : Answer) : result Item :=
  l <~ format_field (link a) ;;
  let subtitle := lit "(" ++ dec (clicks a) ++ lit ") " ++ l in
  s <~ format_field (shortname a) ;;
  let arg := lit "http://go/" ++ s in
  inr (mkItem (shortname a) subtitle (Some arg) None (Some (link a)) true
              (Some (lit "icon.png"))).

Definition update_item : Item :=
  mkItem (PStr (lit "A newer version is available"))
         ([8617] ++ lit " to install update")
         None (Some (lit "workflow:update")) None false (Some ICON_UPDATE).

(** Lines 194 to 204 of [do_search]: show results. *)
Definition show_results (answers : answers) : M unit :=
  for_each (answers_iter answers)
           (fun a => it <- lift (answer_item a) ;; add_item it) ;;;
  warn_empty (lit "No Answers Found") (lit "Try a different query") ;;;
  send_feedback.

(** [args] is the value of [args['<query>']]. *)
Definition do_search (args : ustring) : M unit :=
  (if update_available E then add_item update_item else ret tt) ;;;
  let query := strip args in
  key <- cache_key (PyUnicode query) ;;
  answers <- cached_data key (get_answers query (MAX_RESULTS E)) (CACHE_MAX_AGE E) ;;
  show_results answers.
End Golinks.

(** ** A concrete environment for running the model *)

Module Demo.
(** Canonical decompositions of the code points below U+0100. *)
Definition latin1_decomposition : list (N * ustring) :=
  [
    (192, [65; 768]); (193, [65; 769]); (194, [65; 770]); (195, [65; 771]);
    (196, [65; 776]); (197, [65; 778]); (199, [67; 807]); (200, [69; 768]);
    (201, [69; 769]); (202, [69; 770]); (203, [69; 776]); (204, [73; 768]);
    (205, [73; 769]); (206, [73; 770]); (207, [73; 776]); (209, [78; 771]);
    (210, [79; 768]); (211, [79; 769]); (212, [79; 770]); (213, [79; 771]);
    (214, [79; 776]); (217, [85; 768]); (218, [85; 769]); (219, [85; 770]);
    (220, [85; 776]); (221, [89; 769]); (224, [97; 768]); (225, [97; 769]);
    (226, [97; 770]); (227, [97; 771]); (228, [97; 776]); (229, [97; 778]);
    (231, [99; 807]); (232, [101; 768]); (233, [101; 769]);
    (234, [101; 770]); (235, [101; 776]); (236, [105; 768]);
    (237, [105; 769]); (238, [105; 770]); (239, [105; 776]);
    (241, [110; 771]); (242, [111; 768]); (243, [111; 769]);
    (244, [111; 770]); (245, [111; 771]); (246, [111; 776]);
    (249, [117; 768]); (250, [117; 769]); (251, [117; 770]);
    (252, [117; 776]); (253, [121; 769]); (255, [121; 776])
  ].

Fixpoint decompose (t : list (N * ustring)) (c : N) : ustring :=
  match t with
  | [] => [c]
  | (c', d) :: r => if c' =? c then d else decompose r c
  end.

(** NFD on text whose code points are all below U+0100. *)
Definition nfd_latin1 (u : ustring) : ustring :=
  flat_map (decompose latin1_decomposition) u.

(** [int] on a plain decimal literal with an optional minus sign. *)
Definition int_decimal (s : ustring) : option Z :=
  match s with
  | 45 :: r => option_map (fun n => (- Z.of_N n)%Z) (Html.int10 r)
  | _ => option_map Z.of_N (Html.int10 s)
  end.

Definition site (name url : string) (n : Z) : pyval :=
  PDict [(lit "shortname", PStr (lit name)); (lit "url", PStr (lit url));
         (lit "clicks", PInt n)].

Definition payload (sites : list pyval) : pyval :=
  PDict [(lit "sites", PList sites)].

(** An environment whose API answers every request with [body]. *)
Definition env (update : bool) (status : Z) (body : option pyval) : Env :=
  mkEnv nfd_latin1 int_decimal (fun _ => lit "<object>")
        1114111
        (lit "https://api.stackexchange.com/2.2/search/advanced") 50 20
        (lit "/cache") (fun _ => true)
        (lit "1.0") update (lit "AlertCautionIcon.icns")
        (fun _ => inr (mkResponse status body)).

(** A fresh process at time [t] with an empty cache store. *)
Definition world (t : Z) : World := mkWorld ∅ ∅ t [] [] None.

Definition cafe_accent : ustring := [67; 97; 102; 233].

Definition bugs : list pyval :=
  [site "bugtracker" "http://x/1" 10; site "bugzilla" "http://x/2" 2].

(** A fresh process at time [t] whose cache store holds one entry. *)
Definition world_with (t : Z) (key : ustring) (written : Z) (data : answers)
  : World :=
  mkWorld ∅ {[ key := (written, data) ]} t [] [] None.

Definition stored : answers :=
  AnswerList [mkAnswer (PStr (lit "bugs-old")) (PStr (lit "http://x/0")) 1].

(** A record without its [url]. *)
Definition no_url : pyval :=
  PDict [(lit "shortname", PStr (lit "a")); (lit "clicks", PInt 1)].
End Demo.

(** ** Notions used to state the properties *)

(** [c] run in [w] returns [a]. *)
Definition returns {A} (c : M A) (w : World) (a : A) : Prop := fst (c w) = inr a.

(** A run of two or more consecutive ['-']. *)
Fixpoint has_dash_run (s : ustring) : bool :=
  match s with
  | [] => false
  | c :: r =>
    ((c =? Char.dash) && match r with
                         | d :: _ => d =? Char.dash
                         | [] => false
                         end)
    || has_dash_run r
  end.

(** The text without its last character when that is a ['-']. *)
Fixpoint drop_last_dash (s : ustring) : ustring :=
  match s with
  | [] => []
  | c :: r =>
    match r with
    | [] => if c =? Char.dash then [] else [c]
    | _ :: _ => c :: drop_last_dash r
    end
  end.

(** The key as section 4.2 of the specification words it: replace, collapse,
    then prepend the namespace and append ['-'] and the hash. *)
Definition cache_key_spec (E : Env) (query : basestring) : ustring :=
  lit "search/" ++ collapse (sanitize (lower (asciify E query)))
      ++ [Char.dash] ++ _hash query.

(** The text before the separator and the hash. *)
Definition key_prefix (E : Env) (q : basestring) : ustring :=
  drop_last_dash (collapse (sanitize (lower (asciify E q)))).

(** The one request [get_answers] sends. *)
Definition search_request (E : Env) (query : ustring) (limit : Z) : Request :=
  mkRequest (API_URL E)
            [(lit "short_name", PStr query); (lit "limit", PInt limit)]
            [(lit "User-Agent", USER_AGENT (wf_version E) HELP_URL)].

(** The Answers of a payload, in the order of its [sites]. *)
Definition api_records (E : Env) (data : pyval) : result (list Answer) :=
  rbind (getitem data (lit "sites")) (fun sites =>
  rbind (py_iter sites) (fun ds => rmap (handle_answer E) ds)).

Definition success (r : Response) : bool :=
  ((200 <=? status_code r) && (status_code r <? 300))%Z.

(** What the API hands back for a query before sorting: an error, a falsy
    payload ([None]), or the Answers in API order. *)
Definition fetched (E : Env) (query : ustring) (limit : Z)
  : result (option (list Answer)) :=
  rbind (server E (search_request E query limit)) (fun r =>
  if success r then
    match json_body r with
    | None => raise ValueError
    | Some data =>
      if negb (truthy data) then inr None
      else rbind (api_records E data) (fun recs => inr (Some recs))
    end
  else raise (HTTPError (status_code r))).

Definition nonzero (a : Answer) : bool := negb (sort_key a).

(** Clicks never increase along the list. *)
Fixpoint descending (l : list Z) : bool :=
  match l with
  | x :: r =>
    match r with
    | y :: _ => (y <=? x)%Z && descending r
    | [] => true
    end
  | [] => true
  end.

(** The world after the update notice, if any, was added. *)
Definition started (E : Env) (w : World) : World :=
  if update_available E then set_items (items w ++ [update_item]) w else w.

(** The key [do_search] derives from its argument, and its directory. *)
Definition search_key (E : Env) (args : ustring) : ustring :=
  cache_key_text E (PyUnicode (strip args)).

Definition key_dir (E : Env) (args : ustring) : ustring :=
  dirname (cachefile E (search_key E args)).

(** The directory of the key exists or can be made. *)
Definition dir_ready (E : Env) (args : ustring) (w : World) : bool :=
  bool_decide (key_dir E args ∈ dirs w) || makedirs_ok E (key_dir E args).

(** The world in which the cache is consulted. *)
Definition prepared (E : Env) (args : ustring) (w : World) : World :=
  let w0 := started E w in
  if bool_decide (key_dir E args ∈ dirs w0) then w0
  else set_dirs (dirs w0 ∪ {[ key_dir E args ]}) w0.

(** What [get_answers] makes of the API's reply. *)
Definition answers_of (o : option (list Answer)) : answers :=
  match o with
  | None => EmptyDict
  | Some recs => AnswerList (sort_by bool_le sort_key recs)
  end.

(** The advisory of [wf.warn_empty]. *)
Definition advisory (E : Env) : Item :=
  mkItem (PStr (lit "No Answers Found")) (lit "Try a different query")
         None None None false (Some (ICON_WARNING E)).

(** The item list that is sent: the items added before, then the rendered
    answers; the advisory alone when there is neither. *)
Definition shown (E : Env) (before rendered : list Item) : list Item :=
  match before ++ rendered with
  | [] => [advisory E]
  | l => l
  end.

(** The items the loop adds before an Answer fails to format. *)
Fixpoint rendered_before (E : Env) (l : list Answer) : list Item :=
  match l with
  | [] => []
  | a :: r =>
    match answer_item E a with
    | inr it => it :: rendered_before E r
    | inl _ => []
    end
  end.

(** The ASCII text of a field, empty for anything else. *)
Definition text_of (v : pyval) : ustring :=
  match v with
  | PStr s => s
  | _ => []
  end.

Definition ascii_text (v : pyval) : bool :=
  match v with
  | PStr s => forallb Char.is_ascii s
  | _ => false
  end.

(** Both text fields of the Answer are ASCII text. *)
Definition plain (a : Answer) : bool := ascii_text (shortname a) && ascii_text (link a).

(** The item the specification describes for an Answer. *)
Definition result_item (a : Answer) : Item :=
  mkItem (shortname a)
         (lit "(" ++ dec (clicks a) ++ lit ") " ++ text_of (link a))
         (Some (lit "http://go/" ++ text_of (shortname a)))
         None (Some (link a)) true (Some (lit "icon.png")).

(** The ways the API's reply fails that section 7 names. *)
Inductive api_failure (E : Env) (r : Response) : Prop :=
| bad_status : success r = false -> api_failure E r
| bad_json : json_body r = None -> api_failure E r
| bad_record data sites ds kv field :
    json_body r = Some data ->
    truthy data = true ->
    getitem data (lit "sites") = inr sites ->
    py_iter sites = inr ds ->
    In (PDict kv) ds ->
    In field [lit "shortname"; lit "url"; lit "clicks"] ->
    dict_get kv field = None ->
    api_failure E r.

(** No usable entry for the key: none at all, or one as old as the limit. *)
Definition no_valid_entry (E : Env) (args : ustring) (w : World) : Prop :=
  match cache w !! search_key E args with
  | Some (written, _) => (CACHE_MAX_AGE E <= now w - written)%Z
  | None => True
  end.

(** A lowercase hexadecimal digit. *)
Definition is_hex_lower (c : N) : bool := Char.is_digit c || in_range 97 102 c.

(** A Unicode scalar value: a code point that is not a surrogate. *)
Definition scalar (c : N) : bool := (c <? 55296) || in_range 57344 1114111 c.

(** The text with every ['&'] written as [&amp;], as the API escapes it. *)
Definition escape_amp (s : ustring) : ustring :=
  flat_map (fun c => if c =? Char.amp then lit "&amp;" else [c]) s.

(** The world the next process starts in: the directories, the cache store
    and the request log persist, the clock reads [t], and the workflow's
    item list starts empty. *)
Definition next_run (t : Z) (w : World) : World :=
  mkWorld (dirs w) (cache w) t (requests w) [] None.

(** A process that has added no item and sent nothing yet. *)
Definition fresh_process (w : World) : Prop := items w = [] /\ feedback w = None.

(** The request [get_url] sends for [url] and [params]. *)
Definition url_request (E : Env) (url : ustring) (params : list (ustring * pyval))
  : Request :=
  mkRequest url params [(lit "User-Agent", USER_AGENT (wf_version E) HELP_URL)].

(** The text is empty or starts with a character that is not whitespace. *)
Definition starts_clean (u : ustring) : Prop :=
  match u with
  | [] => True
  | c :: _ => Char.is_space c = false
  end.

(** [p] holds of the [n] code points from [c] on. *)
Fixpoint check_from (n : nat) (c : N) (p : N -> bool) : bool :=
  match n with
  | O => true
  | S k => if p c then check_from k (N.succ c) p else false
  end.

(** The decoder's tests on the two, three and four bytes that encode [c],
    and the code point it rebuilds. *)
Definition decodes2 (c : N) : bool :=
  let b0 := N.lor 192 (N.shiftr c 6) in
  let b1 := N.lor 128 (N.land c 63) in
  negb (b0 <? 128) && in_range 194 223 b0 && is_cont b1
  && (N.shiftl (N.land b0 31) 6 + cont_bits b1 =? c).

Definition decodes3 (c : N) : bool :=
  let b0 := N.lor 224 (N.shiftr c 12) in
  let b1 := N.lor 128 (N.land (N.shiftr c 6) 63) in
  let b2 := N.lor 128 (N.land c 63) in
  negb (b0 <? 128) && negb (in_range 194 223 b0) && in_range 224 239 b0
  && (is_cont b1 && is_cont b2 && negb ((b0 =? 224) && (b1 <? 160)))
  && (N.shiftl (N.land b0 15) 12 + N.shiftl (cont_bits b1) 6 + cont_bits b2 =? c).

Definition decodes4 (c : N) : bool :=
  let b0 := N.lor 240 (N.shiftr c 18) in
  let b1 := N.lor 128 (N.land (N.shiftr c 12) 63) in
  let b2 := N.lor 128 (N.land (N.shiftr c 6) 63) in
  let b3 := N.lor 128 (N.land c 63) in
  negb (b0 <? 128) && negb (in_range 194 223 b0) && negb (in_range 224 239 b0)
  && in_range 240 244 b0
  && (is_cont b1 && is_cont b2 && is_cont b3
      && negb ((b0 =? 240) && (b1 <? 144))
      && negb ((b0 =? 244) && (143 <? b1)))
  && (N.shiftl (N.land b0 7) 18 + N.shiftl (cont_bits b1) 12
      + N.shiftl (cont_bits b2) 6 + cont_bits b3 =? c).

(** The same surroundings with another remote end. *)
Definition with_server (E : Env) (s : Request -> result Response) : Env :=
  mkEnv (normalize_NFD E) (int_of_text E) (py_str E) (maxunicode E)
        (API_URL E) (MAX_RESULTS E) (CACHE_MAX_AGE E) (cachedir E)
        (makedirs_ok E) (wf_version E) (update_available E) (ICON_WARNING E) s.

(** What [get_answers] makes of the value of [sites]. *)
Definition answers_from_sites (E : Env) (v : pyval) : result answers :=
  match v with
  | PList l =>
    match rmap (handle_answer E) l with
    | inr recs => inr (AnswerList (sort_by bool_le sort_key recs))
    | inl e => inl e
    end
  | PDict [] => inr (AnswerList [])
  | PStr [] => inr (AnswerList [])
  | _ => inl TypeError
  end.

(** The record [{"shortname": sn, "url": url, "clicks": c}]. *)
Definition record (sn url c : pyval) : pyval :=
  PDict [(lit "shortname", sn); (lit "url", url); (lit "clicks", c)].

(** The character of a digit below 16, lowercase. *)
Definition digit_char (d : N) : N := if d <? 10 then 48 + d else 87 + d.

(** The digits of [n] in [base], most significant first, at most [fuel]. *)
Fixpoint digits (fuel : nat) (base n : N) : ustring :=
  match fuel with
  | O => []
  | S k =>
    (if n / base =? 0 then [] else digits k base (n / base))
    ++ [digit_char (n mod base)]
  end.

Definition decimal (n : N) : ustring := digits (S (N.to_nat (N.size n))) 10 n.
Definition hexadecimal (n : N) : ustring := digits (S (N.to_nat (N.size n))) 16 n.

(** A name of HTML 4 with its character, or [apos]. *)
Definition entity (name : string) (cp : N) : Prop :=
  In (name, cp) Html.name2codepoint \/ (name = "apos"%string /\ cp = 39).

(** [escapes_to m e p]: [e] writes the text [p] with character references:
    a character other than ['&'] stands for itself, [&name;] for the
    character of the name, [&#d;] and [&#xh;] for the code point with decimal
    digits [d] or hexadecimal digits [h], up to [m]. *)
Inductive escapes_to (m : N) : ustring -> ustring -> Prop :=
| esc_end : escapes_to m [] []
| esc_char c e p :
    c <> Char.amp -> escapes_to m e p -> escapes_to m (c :: e) (c :: p)
| esc_name name cp e p :
    entity name cp -> escapes_to m e p ->
    escapes_to m (Char.amp :: lit name ++ Char.semicolon :: e) (cp :: p)
| esc_decimal cp e p :
    cp <= m -> escapes_to m e p ->
    escapes_to m (Char.amp :: Char.hash :: decimal cp ++ Char.semicolon :: e)
               (cp :: p)
| esc_hex x cp e p :
    Html.is_x x = true -> cp <= m -> escapes_to m e p ->
    escapes_to m (Char.amp :: Char.hash :: x :: hexadecimal cp
                  ++ Char.semicolon :: e)
               (cp :: p).

(** What the pattern of [unescape] lets into a group. *)
Definition group_char (c : N) : bool := Char.is_word c || (c =? Char.hash).

(** A table entry is matched by the pattern and found under its name. *)
Definition entity_ok (nc : string * N) : bool :=
  let g := lit (fst nc) in
  forallb group_char g && Html.group_ok g
  && match g with
     | c :: _ => negb (c =? Char.hash)
     | [] => false
     end
  && match Html.entitydefs g with
     | Some c => c =? snd nc
     | None => false
     end.

(** A digit character is a word character and a hexadecimal digit, is not an
    [x], has the digit as its value, and is decimal below ten. *)
Definition digit_char_ok (d : N) : bool :=
  let c := digit_char d in
  Char.is_word c && Char.is_hex c && negb (Html.is_x c) && negb (c =? Char.hash)
  && (Html.digit_value c =? d)
  && (if d <? 10 then Char.is_digit c else true).

(** ** The model on concrete inputs *)

Example md5_empty :
  MD5.hexdigest [] = lit "d41d8cd98f00b204e9800998ecf8427e".
Proof. vm_compute. reflexivity. Qed.

Example md5_abc :
  MD5.hexdigest (lit "abc") = lit "900150983cd24fb0d6963f7d28e17f72".
Proof. vm_compute. reflexivity. Qed.

Example md5_two_blocks :
  MD5.hexdigest (repeat 97 130) = lit "e016e4ccc7fdaea56fc377600b58c4cb".
Proof. vm_compute. reflexivity. Qed.

Example md5_pad_boundary :
  MD5.hexdigest (repeat 97 56) = lit "3b0c8ac703f828b04c6c197006d17218".
Proof. vm_compute. reflexivity. Qed.

Example unescape_amp :
  Html.unescape 1114111 (PStr (lit "a&amp;b"))
  = inr (PStr (lit "a&b")).
Proof. vm_compute. reflexivity. Qed.

Example unescape_numeric :
  Html.unescape 1114111 (PStr (lit "&#65;&#x42;&#x0x43;&bogus;&#xZZ;& &amp &#1114112;"))
  = inr (PStr (lit "ABC&bogus;&#xZZ;& &amp &#1114112;"))
  /\ Html.unescape 1114111 (PStr (lit "&#2147483648;")) = inl OverflowError.
Proof. vm_compute. auto. Qed.

Example utf8_decode_errors :
  utf8_decode [226; 130; 65] = [65533; 65]
  /\ utf8_decode [226; 130] = [65533]
  /\ utf8_decode [195; 40] = [65533; 40]
  /\ utf8_decode [128; 255; 192; 175] = [65533; 65533; 65533; 65533]
  /\ utf8_decode [240; 159; 152; 65] = [65533; 65]
  /\ utf8_decode [240; 159; 152; 128; 226; 130; 172; 195; 169] = [128512; 8364; 233].
Proof. vm_compute. auto 10. Qed.

Example dirname_ex :
  dirname (lit "/c/search/go-1") = lit "/c/search"
  /\ dirname (lit "/x") = lit "/" /\ dirname (lit "x") = [].
Proof. vm_compute. auto. Qed.

Example key_go_lang :
  cache_key_text (Demo.env false 200 None) (PyUnicode (lit "go lang!"))
  = lit "search/go-lang-00a4a66e396e".
Proof. vm_compute. reflexivity. Qed.

Example key_cafe :
  cache_key_text (Demo.env false 200 None) (PyUnicode Demo.cafe_accent)
  = lit "search/cafe-4655bd14eebf"
  /\ cache_key_text (Demo.env false 200 None) (PyUnicode (lit "cafe"))
     = lit "search/cafe-d2626f412da7".
Proof. vm_compute. auto. Qed.

Example end_to_end_bugs :
  let E := Demo.env false 200 (Some (Demo.payload Demo.bugs)) in
  let r := do_search E (lit "bugs") (Demo.world 0) in
  fst r = inr tt
  /\ option_map (map (fun it => (title it, arg it))) (feedback (snd r))
     = Some [(PStr (lit "bugtracker"), Some (lit "http://go/bugtracker"));
             (PStr (lit "bugzilla"), Some (lit "http://go/bugzilla"))].
Proof. vm_compute. auto. Qed.

(** ** Properties of the key derivation *)

Section KeyFacts.
Lemma hex_digit_not_dash n : MD5.hex_digit n <> Char.dash.
Proof.
  unfold MD5.hex_digit, Char.dash. destruct (n <? 10); lia.
Qed.

Lemma hex_digit_key_char n : n < 16 -> key_char (MD5.hex_digit n) = true.
Proof.
  intros Hn. unfold MD5.hex_digit, key_char, Char.is_lower, Char.is_digit, in_range.
  destruct (n <? 10) eqn:Hlt.
  - apply N.ltb_lt in Hlt.
    assert (H1 : (48 <=? 48 + n) = true) by (apply N.leb_le; lia).
    assert (H2 : (48 + n <=? 57) = true) by (apply N.leb_le; lia).
    rewrite H1, H2. rewrite !orb_true_r. reflexivity.
  - apply N.ltb_ge in Hlt.
    assert (H1 : (97 <=? 87 + n) = true) by (apply N.leb_le; lia).
    assert (H2 : (87 + n <=? 122) = true) by (apply N.leb_le; lia).
    rewrite H1, H2. reflexivity.
Qed.

Lemma low_nibble b : N.land b 15 < 16.
Proof.
  change 15 with (N.ones 4). rewrite N.land_ones.
  apply N.mod_lt. discriminate.
Qed.

Lemma high_nibble b : N.shiftr (N.land b 255) 4 < 16.
Proof.
  change 255 with (N.ones 8). rewrite N.land_ones, N.shiftr_div_pow2.
  apply N.Div0.div_lt_upper_bound.
  change (2 ^ 4 * 16) with (2 ^ 8). apply N.mod_lt. discriminate.
Qed.

Lemma hexdigest_chars msg :
  Forall (fun c => key_char c = true /\ c <> Char.dash) (MD5.hexdigest msg).
Proof.
  unfold MD5.hexdigest. induction (MD5.digest msg) as [|b r IH]; simpl.
  - constructor.
  - repeat constructor; auto using hex_digit_not_dash, hex_digit_key_char,
      low_nibble, high_nibble.
Qed.

Lemma hexdigest_length msg : List.length (MD5.hexdigest msg) = 32%nat.
Proof.
  unfold MD5.hexdigest, MD5.digest.
  set (st := MD5.blocks _ _ _). clearbody st. reflexivity.
Qed.

Lemma hash_chars q :
  Forall (fun c => key_char c = true /\ c <> Char.dash) (_hash q).
Proof.
  unfold _hash. apply Forall_take. apply hexdigest_chars.
Qed.

Lemma hash_length q : List.length (_hash q) = 12%nat.
Proof.
  unfold _hash. rewrite length_firstn, hexdigest_length. reflexivity.
Qed.

(** The equations of [collapse], and the induction that follows them. *)
Lemma collapse_cons_clean c r :
  c <> Char.dash -> collapse (c :: r) = c :: collapse r.
Proof.
  intros Hc. simpl. apply N.eqb_neq in Hc. rewrite Hc. reflexivity.
Qed.

Lemma collapse_dash_dash r :
  collapse (Char.dash :: Char.dash :: r) = collapse (Char.dash :: r).
Proof. reflexivity. Qed.

Lemma collapse_dash_clean d r :
  d <> Char.dash ->
  collapse (Char.dash :: d :: r) = Char.dash :: d :: collapse r.
Proof.
  intros Hd. rewrite <- (collapse_cons_clean d r Hd).
  apply N.eqb_neq in Hd.
  change (collapse (Char.dash :: d :: r))
    with (if d =? Char.dash then collapse (d :: r)
          else Char.dash :: collapse (d :: r)).
  rewrite Hd. reflexivity.
Qed.

Lemma dash_cases (P : ustring -> Prop) :
  P [] ->
  P [Char.dash] ->
  (forall r, P (Char.dash :: r) -> P (Char.dash :: Char.dash :: r)) ->
  (forall d r, d <> Char.dash -> P (d :: r) -> P (Char.dash :: d :: r)) ->
  (forall c r, c <> Char.dash -> P r -> P (c :: r)) ->
  forall s, P s.
Proof.
  intros Hnil Hone Hdd Hdc Hc. induction s as [|c r IH]; [exact Hnil|].
  destruct (N.eq_dec c Char.dash) as [->|Hne]; [|auto].
  destruct r as [|d r']; [exact Hone|].
  destruct (N.eq_dec d Char.dash) as [->|Hne]; auto.
Qed.

Lemma collapse_Forall (P : N -> Prop) s : Forall P s -> Forall P (collapse s).
Proof.
  induction s as [| |r IH|d r Hd IH|c r Hc IH] using dash_cases; intros H.
  - constructor.
  - exact H.
  - rewrite collapse_dash_dash. apply IH. inversion H; assumption.
  - rewrite collapse_dash_clean by assumption.
    rewrite <- (collapse_cons_clean d r Hd).
    inversion H; subst. constructor; auto.
  - rewrite collapse_cons_clean by assumption.
    inversion H; subst. constructor; auto.
Qed.

Lemma collapse_no_run s : has_dash_run (collapse s) = false.
Proof.
  induction s as [| |r IH|d r Hd IH|c r Hc IH] using dash_cases.
  - reflexivity.
  - reflexivity.
  - rewrite collapse_dash_dash. exact IH.
  - rewrite collapse_dash_clean by assumption.
    rewrite collapse_cons_clean in IH by assumption.
    cbn [has_dash_run] in *. apply N.eqb_neq in Hd. rewrite Hd in *.
    rewrite andb_false_r. exact IH.
  - rewrite collapse_cons_clean by assumption.
    cbn [has_dash_run]. apply N.eqb_neq in Hc. rewrite Hc, IH. reflexivity.
Qed.

Lemma collapse_clean h :
  Forall (fun c => c <> Char.dash) h -> collapse h = h.
Proof.
  induction 1 as [|c r Hc Hr IH]; [reflexivity|].
  rewrite collapse_cons_clean by assumption. congruence.
Qed.

Lemma collapse_app_clean t h :
  Forall (fun c => c <> Char.dash) h -> collapse (t ++ h) = collapse t ++ h.
Proof.
  intros Hh.
  induction t as [| |r IH|d r Hd IH|c r Hc IH] using dash_cases.
  - apply collapse_clean. assumption.
  - destruct Hh as [|d h' Hd Hh']; [reflexivity|].
    change ([Char.dash] ++ d :: h') with (Char.dash :: d :: h').
    rewrite collapse_dash_clean by assumption.
    rewrite collapse_clean by assumption. reflexivity.
  - change ((Char.dash :: Char.dash :: r) ++ h)
      with (Char.dash :: Char.dash :: (r ++ h)).
    rewrite !collapse_dash_dash. exact IH.
  - change ((Char.dash :: d :: r) ++ h) with (Char.dash :: d :: (r ++ h)).
    rewrite !collapse_dash_clean by assumption.
    change ((d :: r) ++ h) with (d :: (r ++ h)) in IH.
    rewrite !collapse_cons_clean in IH by assumption.
    injection IH as IH. rewrite IH. reflexivity.
  - rewrite <- app_comm_cons, !collapse_cons_clean by assumption.
    rewrite IH. reflexivity.
Qed.

Lemma collapse_snoc_dash s :
  collapse (s ++ [Char.dash]) = drop_last_dash (collapse s) ++ [Char.dash].
Proof.
  induction s as [| |r IH|d r Hd IH|c r Hc IH] using dash_cases.
  - reflexivity.
  - reflexivity.
  - change ((Char.dash :: Char.dash :: r) ++ [Char.dash])
      with (Char.dash :: Char.dash :: (r ++ [Char.dash])).
    rewrite !collapse_dash_dash. exact IH.
  - change ((Char.dash :: d :: r) ++ [Char.dash])
      with (Char.dash :: d :: (r ++ [Char.dash])).
    rewrite !collapse_dash_clean by assumption.
    change ((d :: r) ++ [Char.dash]) with (d :: (r ++ [Char.dash])) in IH.
    rewrite !collapse_cons_clean in IH by assumption.
    change (drop_last_dash (Char.dash :: d :: collapse r))
      with (Char.dash :: drop_last_dash (d :: collapse r)).
    rewrite <- app_comm_cons, <- IH. reflexivity.
  - rewrite <- app_comm_cons, !collapse_cons_clean by assumption.
    rewrite IH. destruct (collapse r) as [|x y].
    + simpl. apply N.eqb_neq in Hc. rewrite Hc. reflexivity.
    + reflexivity.
Qed.

(** The hash is appended before the runs are collapsed: a ['-'] that ends
    the sanitized text merges with the separator. *)
Lemma collapse_with_hash s h :
  Forall (fun c => c <> Char.dash) h ->
  collapse (s ++ [Char.dash] ++ h)
  = drop_last_dash (collapse s) ++ [Char.dash] ++ h.
Proof.
  intros Hh. rewrite !app_assoc.
  rewrite collapse_app_clean by assumption.
  rewrite collapse_snoc_dash. reflexivity.
Qed.

Lemma sanitize_chars s : Forall (fun c => key_char c = true) (sanitize s).
Proof.
  unfold sanitize. induction s as [|c r IH]; simpl; constructor; auto.
  destruct (key_char c) eqn:Hc; [assumption|reflexivity].
Qed.
End KeyFacts.

(** ** The cache key *)

Section CacheKey.
Variable E : Env.

Lemma utf8_decode_ascii b :
  forallb Char.is_ascii b = true -> utf8_decode b = b.
Proof.
  induction b as [|c r IH]; [reflexivity|]. cbn [forallb].
  intros H. apply andb_true_iff in H. destruct H as [Hc Hr].
  unfold Char.is_ascii in Hc. cbn [utf8_decode]. rewrite Hc, (IH Hr). reflexivity.
Qed.

(** ASCII folding: decompose, then drop what is not ASCII. *)
Lemma asciify_fold q :
  asciify E q = List.filter Char.is_ascii (normalize_NFD E (unicodify q)).
Proof.
  unfold asciify. cbn [unicodify]. apply utf8_decode_ascii.
  induction (normalize_NFD E (unicodify q)) as [|c r IH]; [reflexivity|].
  cbn [List.filter]. destruct (Char.is_ascii c) eqn:Hc; [|exact IH].
  cbn [forallb]. rewrite Hc, IH. reflexivity.
Qed.

(** [cache_key] either returns the text of lines 116 to 121, having made
    sure its directory exists, or fails in [os.makedirs]. *)
Lemma cache_key_run q w :
  cache_key E q w =
  let key := cache_key_text E q in
  let d := dirname (cachefile E key) in
  if bool_decide (d ∈ dirs w) then (inr key, w)
  else if makedirs_ok E d then (inr key, set_dirs (dirs w ∪ {[ d ]}) w)
       else (inl OSError, w).
Proof.
  unfold cache_key, bind, path_exists, makedirs, ret. cbn.
  destruct (bool_decide _); cbn; [reflexivity|].
  destruct (makedirs_ok E _); reflexivity.
Qed.

Lemma cache_key_value q w k :
  returns (cache_key E q) w k -> k = cache_key_text E q.
Proof.
  unfold returns. rewrite cache_key_run. cbn.
  destruct (bool_decide _); cbn; [congruence|].
  destruct (makedirs_ok E _); cbn; congruence.
Qed.

Lemma cache_key_text_shape q :
  cache_key_text E q
  = lit "search/"
    ++ drop_last_dash (collapse (sanitize (lower (asciify E q))))
    ++ [Char.dash] ++ _hash q.
Proof.
  unfold cache_key_text. f_equal. apply collapse_with_hash.
  eapply Forall_impl; [apply hash_chars|]. cbn. tauto.
Qed.

Lemma drop_last_dash_Forall (P : N -> Prop) s :
  Forall P s -> Forall P (drop_last_dash s).
Proof.
  induction 1 as [|c r Hc Hr IH]; [constructor|].
  cbn [drop_last_dash]. destruct r as [|d r'].
  - destruct (c =? Char.dash); repeat constructor; assumption.
  - constructor; assumption.
Qed.
End CacheKey.

(** C2 (as the code has it): the key is ["search/"], the collapsed sanitized
    text without a final ['-'], one ['-'] and the 12-digit hash, because the
    hash is appended before the runs of ['-'] are collapsed; consequently the
    key holds no run of two or more ['-']. *)
Theorem cache_key_collapses_after_hash (E : Env) (q : basestring) (w : World)
        (k : ustring) :
  returns (cache_key E q) w k ->
  asciify E q = List.filter Char.is_ascii (normalize_NFD E (unicodify q))
  /\ k = lit "search/" ++ collapse (sanitize (lower (asciify E q)) ++ [Char.dash] ++ _hash q)
  /\ k = lit "search/"
         ++ drop_last_dash (collapse (sanitize (lower (asciify E q))))
         ++ [Char.dash] ++ _hash q
  /\ has_dash_run k = false.
Proof.
  intros Hk. apply cache_key_value in Hk. subst k.
  split; [apply asciify_fold|]. split; [reflexivity|].
  split; [apply cache_key_text_shape|].
  unfold cache_key_text. cbn -[collapse]. apply collapse_no_run.
Qed.

Lemma cache_key_collapses_after_hash_witness :
  let E := Demo.env false 200 None in
  let k := lit "search/go-lang-00a4a66e396e" in
  returns (cache_key E (PyUnicode (lit "go lang!"))) (Demo.world 0) k
  /\ has_dash_run k = false.
Proof.
  intros E k.
  assert (H : returns (cache_key E (PyUnicode (lit "go lang!"))) (Demo.world 0) k)
    by (vm_compute; reflexivity).
  split; [exact H|].
  exact (proj2 (proj2 (proj2 (cache_key_collapses_after_hash E _ _ k H)))).
Defined.

(** C2 (as stated) fails: for ["go lang!"] the sanitized text ends in ['-'],
    so collapsing before the hash is appended leaves two ['-'] in a row, and
    that is not the key the code returns. *)
Lemma cache_key_not_spec_order :
  let E := Demo.env false 200 None in
  let q := PyUnicode (lit "go lang!") in
  returns (cache_key E q) (Demo.world 0) (lit "search/go-lang-00a4a66e396e")
  /\ cache_key_spec E q = lit "search/go-lang--00a4a66e396e"
  /\ ~ returns (cache_key E q) (Demo.world 0) (cache_key_spec E q).
Proof.
  cbv zeta. split; [vm_compute; reflexivity|].
  split; [vm_compute; reflexivity|].
  vm_compute. discriminate.
Qed.

(** C8: the key depends on the query only (any two runs that return give the
    same key), deriving it again after a run returns the same key and changes
    nothing, and the key is ["search/"] followed by characters of
    [[a-z0-9-_;.]] only. *)
Theorem cache_key_deterministic_safe (E : Env) (q : basestring)
        (w1 w2 : World) (k1 k2 : ustring) :
  returns (cache_key E q) w1 k1 ->
  returns (cache_key E q) w2 k2 ->
  k1 = k2
  /\ cache_key E q (snd (cache_key E q w1)) = (inr k1, snd (cache_key E q w1))
  /\ exists rest, k1 = lit "search/" ++ rest
                  /\ Forall (fun c => key_char c = true /\ c <> Char.slash) rest
                  /\ (13 <= List.length rest)%nat.
Proof.
  intros H1 H2. pose proof (cache_key_value E _ _ _ H1) as ->.
  pose proof (cache_key_value E _ _ _ H2) as ->. split; [reflexivity|]. split.
  - unfold returns in H1. rewrite !cache_key_run in *. cbv zeta in *.
    destruct (bool_decide _) eqn:Hd; cbn [snd].
    + rewrite Hd. reflexivity.
    + destruct (makedirs_ok E _); [|discriminate]. cbn [snd set_dirs dirs].
      rewrite bool_decide_true by set_solver. reflexivity.
  - eexists. split; [apply cache_key_text_shape|]. split.
    + assert (Hkc : Forall (fun c => key_char c = true)
                           (drop_last_dash (collapse (sanitize (lower (asciify E q))))
                            ++ [Char.dash] ++ _hash q)).
      { apply Forall_app. split.
        - apply drop_last_dash_Forall, collapse_Forall, sanitize_chars.
        - apply Forall_app. split; [repeat constructor|].
          eapply Forall_impl; [apply hash_chars|]. cbn. tauto. }
      eapply Forall_impl; [exact Hkc|]. cbn. intros c Hc. split; [exact Hc|].
      intros ->. discriminate Hc.
    + rewrite !length_app, hash_length. cbn. lia.
Qed.

Lemma cache_key_deterministic_safe_witness :
  let E := Demo.env false 200 None in
  let q := PyUnicode Demo.cafe_accent in
  let k := lit "search/cafe-4655bd14eebf" in
  returns (cache_key E q) (Demo.world 0) k
  /\ returns (cache_key E q) (Demo.world 7) k
  /\ cache_key E q (snd (cache_key E q (Demo.world 0)))
     = (inr k, snd (cache_key E q (Demo.world 0))).
Proof.
  intros E q k.
  assert (H1 : returns (cache_key E q) (Demo.world 0) k) by (vm_compute; reflexivity).
  assert (H2 : returns (cache_key E q) (Demo.world 7) k) by (vm_compute; reflexivity).
  split; [exact H1|]. split; [exact H2|].
  exact (proj1 (proj2 (cache_key_deterministic_safe E q _ _ k k H1 H2))).
Defined.

(** C4 (as the code has it): the key ends in ['-'] and the first 12 hex digits
    of the MD5 digest of the query as given (for text, of its UTF-8
    encoding), taken before any normalization; two keys are equal exactly
    when both the normalized prefixes and these 12 digits are equal, so
    queries whose digits differ, such as "Café" and "cafe", have different
    keys. *)
Theorem cache_key_hash_suffix (E : Env) (q1 q2 : basestring) (w1 w2 : World)
        (k1 k2 : ustring) :
  returns (cache_key E q1) w1 k1 ->
  returns (cache_key E q2) w2 k2 ->
  k1 = lit "search/" ++ key_prefix E q1 ++ [Char.dash] ++ _hash q1
  /\ (forall u, q1 = PyUnicode u ->
                _hash q1 = firstn 12 (MD5.hexdigest (utf8_encode u)))
  /\ (k1 = k2 <-> key_prefix E q1 = key_prefix E q2 /\ _hash q1 = _hash q2)
  /\ (q1 = PyUnicode Demo.cafe_accent -> q2 = PyUnicode (lit "cafe") -> k1 <> k2).
Proof.
  intros H1 H2. pose proof (cache_key_value E _ _ _ H1) as ->.
  pose proof (cache_key_value E _ _ _ H2) as ->.
  assert (Hiff : cache_key_text E q1 = cache_key_text E q2
                 <-> key_prefix E q1 = key_prefix E q2 /\ _hash q1 = _hash q2).
  { rewrite !cache_key_text_shape. fold (key_prefix E q1) (key_prefix E q2). split.
    - intros Heq. apply app_inv_head in Heq. rewrite !app_assoc in Heq.
      apply app_inj_2 in Heq; [|rewrite !hash_length; reflexivity].
      destruct Heq as [Hp Hh]. apply app_inj_tail in Hp. tauto.
    - intros [-> ->]. reflexivity. }
  split; [apply cache_key_text_shape|].
  split; [intros u ->; reflexivity|].
  split; [exact Hiff|].
  intros -> -> Heq. apply Hiff in Heq. destruct Heq as [_ Heq].
  vm_compute in Heq. discriminate.
Qed.

Lemma cache_key_hash_suffix_witness :
  let E := Demo.env false 200 None in
  let k1 := lit "search/cafe-4655bd14eebf" in
  let k2 := lit "search/cafe-d2626f412da7" in
  returns (cache_key E (PyUnicode Demo.cafe_accent)) (Demo.world 0) k1
  /\ returns (cache_key E (PyUnicode (lit "cafe"))) (Demo.world 0) k2
  /\ k1 <> k2.
Proof.
  intros E k1 k2.
  assert (H1 : returns (cache_key E (PyUnicode Demo.cafe_accent)) (Demo.world 0) k1)
    by (vm_compute; reflexivity).
  assert (H2 : returns (cache_key E (PyUnicode (lit "cafe"))) (Demo.world 0) k2)
    by (vm_compute; reflexivity).
  split; [exact H1|]. split; [exact H2|].
  exact (proj2 (proj2 (proj2 (cache_key_hash_suffix E _ _ _ _ k1 k2 H1 H2)))
               eq_refl eq_refl).
Defined.

(** C4 (as stated) fails: two different queries with the same normalized
    prefix whose MD5 digests agree on the first 12 hex digits get the same
    key. *)
Lemma cache_key_collision :
  let E := Demo.env false 200 None in
  let q1 := lit "ABcDEfghijklmnoPQrsTUvwxYz" in
  let q2 := lit "aBCdEFGhIJklMNOPqRsTuVWxYz" in
  let k := lit "search/abcdefghijklmnopqrstuvwxyz-239b453deef0" in
  q1 <> q2
  /\ returns (cache_key E (PyUnicode q1)) (Demo.world 0) k
  /\ returns (cache_key E (PyUnicode q2)) (Demo.world 0) k.
Proof.
  cbv zeta. split; [vm_compute; discriminate|].
  split; vm_compute; reflexivity.
Qed.

(** ** Fetching and ordering the answers *)

Section Ordering.
Context {A : Type} (key : A -> bool).

Lemma insert_false x l :
  key x = false -> insert_by bool_le key x l = x :: l.
Proof.
  intros Hx. destruct l as [|y r]; cbn; [reflexivity|].
  rewrite Hx. reflexivity.
Qed.

Lemma insert_true x l1 l2 :
  key x = true ->
  Forall (fun y => key y = false) l1 ->
  Forall (fun y => key y = true) l2 ->
  insert_by bool_le key x (l1 ++ l2) = l1 ++ x :: l2.
Proof.
  intros Hx H1 H2. induction H1 as [|y r Hy Hr IH]; cbn.
  - destruct H2 as [|y r Hy Hr]; cbn; [reflexivity|].
    rewrite Hx, Hy. reflexivity.
  - rewrite Hx, Hy. cbn. rewrite IH. reflexivity.
Qed.

Lemma filter_all (f : A -> bool) l : Forall (fun y => f y = true) (List.filter f l).
Proof.
  induction l as [|y r IH]; cbn; [constructor|].
  destruct (f y) eqn:Hy; [constructor|]; assumption.
Qed.

(** A stable sort on a boolean key is a stable partition. *)
Lemma sort_by_partition l :
  sort_by bool_le key l
  = List.filter (fun a => negb (key a)) l ++ List.filter key l.
Proof.
  induction l as [|x r IH]; [reflexivity|].
  cbn [sort_by List.filter]. rewrite IH. destruct (key x) eqn:Hx; cbn [negb].
  - apply insert_true; [assumption| |apply filter_all].
    eapply Forall_impl; [apply (filter_all (fun a => negb (key a)))|].
    cbn. intros y Hy. destruct (key y); [discriminate|reflexivity].
  - rewrite insert_false by assumption. reflexivity.
Qed.

Lemma filter_filter_same (f : A -> bool) l :
  List.filter f (List.filter f l) = List.filter f l.
Proof.
  induction l as [|x r IH]; cbn; [reflexivity|].
  destruct (f x) eqn:Hx; cbn; rewrite ?Hx, IH; reflexivity.
Qed.

Lemma filter_filter_neg (f : A -> bool) l :
  List.filter (fun a => negb (f a)) (List.filter f l) = [].
Proof.
  induction l as [|x r IH]; cbn; [reflexivity|].
  destruct (f x) eqn:Hx; cbn; rewrite ?Hx; cbn; exact IH.
Qed.
End Ordering.

Section Fetch.
Variable E : Env.

(** [get_answers] sends one request and decodes the reply. *)
Lemma get_answers_run query limit w :
  get_answers E query limit w =
  (match fetched E query limit with
   | inl e => inl e
   | inr None => inr EmptyDict
   | inr (Some recs) => inr (AnswerList (sort_by bool_le sort_key recs))
   end,
   set_requests (requests w ++ [search_request E query limit]) w).
Proof.
  unfold get_answers, api_call, get_url, web_get, raise_for_status, json,
    fetched, api_records, search_request, success, bind, lift, ret, throw,
    rbind, raise.
  cbn. destruct (server E _) as [e|r]; [reflexivity|].
  destruct ((200 <=? status_code r)%Z && (status_code r <? 300)%Z); cbn;
    [|reflexivity].
  destruct (json_body r) as [data|]; cbn; [|reflexivity].
  destruct (truthy data); cbn; [|reflexivity].
  destruct (getitem data _) as [e|sites]; cbn; [reflexivity|].
  destruct (py_iter sites) as [e|ds]; cbn; [reflexivity|].
  destruct (rmap (handle_answer E) ds); reflexivity.
Qed.
End Fetch.

(** C1 (as the code has it): the sequence returned is the mapped records in
    API order, stably partitioned by the key [not clicks]: the answers with
    nonzero clicks first, those with zero clicks last, each group in API
    order.  For clicks [0, 5, 0, 3] that is [5, 3, 0 (first), 0 (second)]. *)
Theorem get_answers_partitions (E : Env) (query : ustring) (limit : Z)
        (w : World) (recs : list Answer) :
  fetched E query limit = inr (Some recs) ->
  returns (get_answers E query limit) w
          (AnswerList (List.filter nonzero recs ++ List.filter sort_key recs))
  /\ map clicks
         (sort_by bool_le sort_key
            [mkAnswer (PStr (lit "first")) PNone 0; mkAnswer (PStr (lit "b")) PNone 5;
             mkAnswer (PStr (lit "second")) PNone 0; mkAnswer (PStr (lit "d")) PNone 3])
     = [5; 3; 0; 0]%Z
  /\ map shortname
         (sort_by bool_le sort_key
            [mkAnswer (PStr (lit "first")) PNone 0; mkAnswer (PStr (lit "b")) PNone 5;
             mkAnswer (PStr (lit "second")) PNone 0; mkAnswer (PStr (lit "d")) PNone 3])
     = [PStr (lit "b"); PStr (lit "d"); PStr (lit "first"); PStr (lit "second")].
Proof.
  intros Hf. split; [|split; reflexivity].
  unfold returns. rewrite get_answers_run, Hf. cbn [fst].
  rewrite sort_by_partition. reflexivity.
Qed.

Lemma get_answers_partitions_witness :
  let sites := [Demo.site "a" "http://x/a" 0; Demo.site "b" "http://x/b" 5;
                Demo.site "c" "http://x/c" 0; Demo.site "d" "http://x/d" 3] in
  let E := Demo.env false 200 (Some (Demo.payload sites)) in
  exists l, returns (get_answers E (lit "x") 50) (Demo.world 0) (AnswerList l)
            /\ map clicks l = [5; 3; 0; 0]%Z
            /\ map shortname l = [PStr (lit "b"); PStr (lit "d"); PStr (lit "a");
                                  PStr (lit "c")].
Proof.
  intros sites E.
  assert (H : fetched E (lit "x") 50
              = inr (Some [mkAnswer (PStr (lit "a")) (PStr (lit "http://x/a")) 0;
                           mkAnswer (PStr (lit "b")) (PStr (lit "http://x/b")) 5;
                           mkAnswer (PStr (lit "c")) (PStr (lit "http://x/c")) 0;
                           mkAnswer (PStr (lit "d")) (PStr (lit "http://x/d")) 3]))
    by (vm_compute; reflexivity).
  eexists. split.
  - exact (proj1 (get_answers_partitions E (lit "x") 50 (Demo.world 0) _ H)).
  - split; reflexivity.
Defined.

(** C1 (as stated) fails: records with clicks 3 then 5 come back in that
    order, which is not descending. *)
Lemma get_answers_not_descending :
  let E := Demo.env false 200
             (Some (Demo.payload [Demo.site "a" "http://x/a" 3;
                                  Demo.site "b" "http://x/b" 5])) in
  exists l, returns (get_answers E (lit "x") 50) (Demo.world 0) (AnswerList l)
            /\ map clicks l = [3; 5]%Z
            /\ descending (map clicks l) = false.
Proof.
  cbv zeta. eexists. split; [vm_compute; reflexivity|].
  split; reflexivity.
Qed.

(** C10: among the answers with nonzero clicks the API order is kept: the
    nonzero answers of the result are the nonzero answers of the API
    sequence, in the same order; clicks 3 before 5 stay 3 before 5. *)
Theorem get_answers_keeps_nonzero_order (E : Env) (query : ustring) (limit : Z)
        (w : World) (recs : list Answer) :
  fetched E query limit = inr (Some recs) ->
  exists l, returns (get_answers E query limit) w (AnswerList l)
            /\ List.filter nonzero l = List.filter nonzero recs
            /\ (forall a b : Answer,
                   nonzero a = true -> nonzero b = true ->
                   sort_by bool_le sort_key [a; b] = [a; b]).
Proof.
  intros Hf. eexists. split; [|split].
  - unfold returns. rewrite get_answers_run, Hf. reflexivity.
  - rewrite sort_by_partition, List.filter_app.
    unfold nonzero. rewrite filter_filter_same, filter_filter_neg.
    apply app_nil_r.
  - intros a b Ha Hb. rewrite sort_by_partition. unfold nonzero in *.
    cbn. destruct (sort_key a), (sort_key b); try discriminate. reflexivity.
Qed.

Lemma get_answers_keeps_nonzero_order_witness :
  let sites := [Demo.site "a" "http://x/a" 3; Demo.site "z" "http://x/z" 0;
                Demo.site "b" "http://x/b" 5] in
  let E := Demo.env false 200 (Some (Demo.payload sites)) in
  exists l, returns (get_answers E (lit "x") 50) (Demo.world 0) (AnswerList l)
            /\ map clicks (List.filter nonzero l) = [3; 5]%Z.
Proof.
  intros sites E.
  assert (H : fetched E (lit "x") 50
              = inr (Some [mkAnswer (PStr (lit "a")) (PStr (lit "http://x/a")) 3;
                           mkAnswer (PStr (lit "z")) (PStr (lit "http://x/z")) 0;
                           mkAnswer (PStr (lit "b")) (PStr (lit "http://x/b")) 5]))
    by (vm_compute; reflexivity).
  destruct (get_answers_keeps_nonzero_order E (lit "x") 50 (Demo.world 0) _ H)
    as (l & Hl & Hnz & _).
  exists l. split; [exact Hl|]. rewrite Hnz. reflexivity.
Defined.

(** ** The mapping of one record *)

Lemma check_from_sound n c p :
  check_from n c p = true ->
  forall x, c <= x -> x < c + N.of_nat n -> p x = true.
Proof.
  revert c. induction n as [|k IH]; intros c H x Hlo Hhi; [lia|].
  cbn [check_from] in H. destruct (p c) eqn:Hp; [|discriminate].
  destruct (N.eq_dec x c) as [->|Hne]; [exact Hp|].
  apply (IH (N.succ c) H); lia.
Qed.

Lemma handle_answer_record (E : Env) (sn url c : pyval) :
  handle_answer E (PDict [(lit "shortname", sn); (lit "url", url); (lit "clicks", c)])
  = rbind (unescape E sn) (fun sn' =>
    rbind (unescape E url) (fun url' =>
    rbind (py_int E c) (fun n => inr (mkAnswer sn' url' n)))).
Proof. reflexivity. Qed.

(** A record maps exactly when its three fields are present and accepted. *)
Lemma handle_answer_fields (E : Env) (d : pyval) (a : Answer) :
  handle_answer E d = inr a <->
  exists sn url c,
    getitem d (lit "shortname") = inr sn
    /\ getitem d (lit "url") = inr url
    /\ getitem d (lit "clicks") = inr c
    /\ unescape E sn = inr (shortname a)
    /\ unescape E url = inr (link a)
    /\ py_int E c = inr (clicks a).
Proof.
  unfold handle_answer, rbind. split.
  - intros H.
    destruct (getitem d (lit "shortname")) as [|sn]; [discriminate|].
    destruct (unescape E sn) as [|sn'] eqn:Hsn; [discriminate|].
    destruct (getitem d (lit "url")) as [|url]; [discriminate|].
    destruct (unescape E url) as [|url'] eqn:Hurl; [discriminate|].
    destruct (getitem d (lit "clicks")) as [|c]; [discriminate|].
    destruct (py_int E c) as [|n] eqn:Hc; [discriminate|].
    injection H as <-. exists sn, url, c. cbn. auto 10.
  - intros (sn & url & c & -> & -> & -> & -> & -> & ->).
    destruct a; reflexivity.
Qed.

Section References.
Variable m : N.

Lemma entity_table_ok : forallb entity_ok Html.name2codepoint = true.
Proof. vm_compute. reflexivity. Qed.

Lemma digit_chars_ok : check_from 16 0 digit_char_ok = true.
Proof. vm_compute. reflexivity. Qed.

Lemma digit_char_facts d :
  d < 16 ->
  Char.is_word (digit_char d) = true /\ Char.is_hex (digit_char d) = true
  /\ Html.is_x (digit_char d) = false /\ (digit_char d =? Char.hash) = false
  /\ Html.digit_value (digit_char d) = d
  /\ (d < 10 -> Char.is_digit (digit_char d) = true).
Proof.
  intros Hd. pose proof (check_from_sound _ _ _ digit_chars_ok d) as H.
  specialize (H ltac:(lia) ltac:(cbn; lia)). unfold digit_char_ok in H.
  cbv zeta in H.
  apply andb_true_iff in H. destruct H as [H H6].
  apply andb_true_iff in H. destruct H as [H H5].
  apply andb_true_iff in H. destruct H as [H H4].
  apply andb_true_iff in H. destruct H as [H H3].
  apply andb_true_iff in H. destruct H as [H1 H2].
  apply negb_true_iff in H3. apply negb_true_iff in H4. apply N.eqb_eq in H5.
  repeat (split; [assumption|]). intros Hlt. apply N.ltb_lt in Hlt.
  rewrite Hlt in H6. exact H6.
Qed.

Lemma of_digits_snoc b pre c :
  Html.of_digits b (pre ++ [c]) = b * Html.of_digits b pre + Html.digit_value c.
Proof. unfold Html.of_digits. rewrite fold_left_app. reflexivity. Qed.

Lemma digits_value fuel b n :
  2 <= b -> b <= 16 -> n < b ^ N.of_nat fuel ->
  Html.of_digits b (digits fuel b n) = n.
Proof.
  intros Hb2 Hb16. revert n. induction fuel as [|k IH]; intros n Hn.
  - cbn in Hn. assert (n = 0) by lia. subst n. reflexivity.
  - cbn [digits]. rewrite of_digits_snoc.
    assert (Hmod : n mod b < b) by (apply N.mod_lt; lia).
    destruct (digit_char_facts (n mod b) ltac:(lia)) as (_ & _ & _ & _ & Hv & _).
    rewrite Hv. pose proof (N.div_mod n b ltac:(lia)) as Hdm.
    destruct (n / b =? 0) eqn:Hq.
    + apply N.eqb_eq in Hq. rewrite Hq in Hdm. cbn. lia.
    + rewrite IH; [lia|].
      apply N.Div0.div_lt_upper_bound.
      rewrite Nnat.Nat2N.inj_succ, N.pow_succ_r' in Hn. exact Hn.
Qed.

Lemma digits_chars fuel b n :
  0 < b ->
  Forall (fun c => exists d, d < b /\ c = digit_char d) (digits fuel b n).
Proof.
  intros Hb. revert n. induction fuel as [|k IH]; intros n; [constructor|].
  cbn [digits]. apply Forall_app. split.
  - destruct (n / b =? 0); [constructor|apply IH].
  - repeat constructor. exists (n mod b). split; [apply N.mod_lt; lia|reflexivity].
Qed.

Lemma digits_not_nil k b n : digits (S k) b n <> [].
Proof.
  cbn [digits]. destruct (if n / b =? 0 then [] else digits k b (n / b));
    discriminate.
Qed.

Lemma enough_fuel b n : 2 <= b -> n < b ^ N.of_nat (S (N.to_nat (N.size n))).
Proof.
  intros Hb. rewrite Nnat.Nat2N.inj_succ, Nnat.N2Nat.id.
  apply N.lt_le_trans with (2 ^ N.succ (N.size n)).
  - apply N.lt_trans with (2 ^ N.size n); [apply N.size_gt|].
    apply N.pow_lt_mono_r; lia.
  - apply N.pow_le_mono_l. exact Hb.
Qed.

Lemma forallb_digits (f : N -> bool) b n k :
  0 < b -> b <= 16 ->
  (forall d, d < b -> f (digit_char d) = true) ->
  forallb f (digits k b n) = true.
Proof.
  intros Hb Hb16 Hf. apply forallb_forall. intros c Hc.
  pose proof (digits_chars k b n Hb) as Hall.
  rewrite List.Forall_forall in Hall. destruct (Hall c Hc) as (d & Hd & ->).
  apply Hf. exact Hd.
Qed.

Lemma decimal_facts n :
  decimal n <> [] /\ forallb Char.is_digit (decimal n) = true
  /\ forallb Char.is_hex (decimal n) = true
  /\ forallb group_char (decimal n) = true
  /\ Html.of_digits 10 (decimal n) = n.
Proof.
  unfold decimal. split; [apply digits_not_nil|].
  split; [apply forallb_digits; try lia; intros d Hd;
          apply (digit_char_facts d); lia|].
  split; [apply forallb_digits; try lia; intros d Hd;
          apply (digit_char_facts d); lia|].
  split; [|apply digits_value; try lia; apply enough_fuel; lia].
  apply forallb_digits; try lia. intros d Hd. unfold group_char.
  destruct (digit_char_facts d ltac:(lia)) as (-> & _). reflexivity.
Qed.

Lemma hexadecimal_facts n :
  hexadecimal n <> [] /\ forallb Char.is_hex (hexadecimal n) = true
  /\ forallb group_char (hexadecimal n) = true
  /\ Html.of_digits 16 (hexadecimal n) = n.
Proof.
  unfold hexadecimal. split; [apply digits_not_nil|].
  split; [apply forallb_digits; try lia; intros d Hd;
          apply (digit_char_facts d); lia|].
  split; [|apply digits_value; try lia; apply enough_fuel; lia].
  apply forallb_digits; try lia. intros d Hd. unfold group_char.
  destruct (digit_char_facts d ltac:(lia)) as (-> & _). reflexivity.
Qed.

Lemma take_group_stop g tail :
  forallb group_char g = true ->
  Html.take_group (g ++ Char.semicolon :: tail) = g.
Proof.
  induction g as [|c r IH]; [reflexivity|]. cbn [forallb app Html.take_group].
  intros H. apply andb_true_iff in H. destruct H as [Hc Hr].
  unfold group_char in Hc. rewrite Hc, (IH Hr). reflexivity.
Qed.

Lemma skipn_group {A} (g t : list A) : skipn (List.length g) (g ++ t) = t.
Proof. induction g as [|c r IH]; [reflexivity|exact IH]. Qed.

Lemma skip_group g k t :
  Html.sub_entities m (List.length g + k) (g ++ t) = Html.sub_entities m k t.
Proof. induction g as [|c r IH]; [reflexivity|exact IH]. Qed.

(** One reference: matched, replaced, and passed over. *)
Lemma entity_step g rep tail :
  forallb group_char g = true ->
  Html.group_ok g = true ->
  Html.replaceEntities m g = inr rep ->
  Html.sub_entities m 0 (Char.amp :: g ++ Char.semicolon :: tail)
  = rbind (Html.sub_entities m 0 tail) (fun rest => inr (rep ++ rest)).
Proof.
  intros Hg Hok Hrep. cbn [Html.sub_entities]. rewrite N.eqb_refl.
  unfold Html.match_entity. rewrite (take_group_stop g tail Hg), skipn_group.
  rewrite N.eqb_refl, Hok. cbn [andb]. rewrite Hrep. unfold rbind at 1.
  rewrite <- Nat.add_1_r, skip_group. reflexivity.
Qed.

Lemma is_hex_not_x c : Char.is_hex c = true -> Html.is_x c = false.
Proof.
  intros H. unfold Html.is_x.
  destruct (c =? 120) eqn:H1; [apply N.eqb_eq in H1; subst c; discriminate H|].
  destruct (c =? 88) eqn:H2; [apply N.eqb_eq in H2; subst c; discriminate H|].
  reflexivity.
Qed.

Lemma int16_hex s :
  s <> [] -> forallb Char.is_hex s = true ->
  Html.int16 s = Some (Html.of_digits 16 s).
Proof.
  intros Hne Hs. unfold Html.int16.
  assert (Hbody : match s with
                  | 48 :: x :: d :: r =>
                    if Html.is_x x && Char.is_hex d then d :: r else s
                  | _ => s
                  end = s).
  { destruct s as [|a [|x [|d r]]]; try reflexivity.
    + destruct a as [|p]; [reflexivity|].
      do 6 (destruct p as [p|p|]; try reflexivity).
    + destruct a as [|p]; [reflexivity|].
      do 6 (destruct p as [p|p|]; try reflexivity).
    + cbn [forallb] in Hs. apply andb_true_iff in Hs. destruct Hs as [_ Hs].
      apply andb_true_iff in Hs. destruct Hs as [Hx _].
      apply is_hex_not_x in Hx.
      destruct a as [|p]; [reflexivity|].
      do 6 (destruct p as [p|p|]; try reflexivity).
      rewrite Hx. reflexivity. }
  rewrite Hbody. destruct s; [congruence|]. rewrite Hs. reflexivity.
Qed.

Lemma unichr_ok cp : cp <= m -> Html.unichr m cp = inr cp.
Proof.
  intros H. unfold Html.unichr. apply N.leb_le in H. rewrite H. reflexivity.
Qed.

Lemma decimal_step cp tail :
  cp <= m ->
  Html.sub_entities m 0
    (Char.amp :: Char.hash :: decimal cp ++ Char.semicolon :: tail)
  = rbind (Html.sub_entities m 0 tail) (fun rest => inr (cp :: rest)).
Proof.
  intros Hcp. destruct (decimal_facts cp) as (Hne & Hdig & Hhex & Hgrp & Hval).
  change (Char.amp :: Char.hash :: decimal cp ++ Char.semicolon :: tail)
    with (Char.amp :: (Char.hash :: decimal cp) ++ Char.semicolon :: tail).
  rewrite (entity_step (Char.hash :: decimal cp) [cp]); [reflexivity| | |].
  - cbn [forallb]. rewrite Hgrp. reflexivity.
  - unfold Html.group_ok. rewrite N.eqb_refl. unfold Html.opt_x, Html.alt.
    destruct (decimal cp) as [|x r]; [congruence|]. rewrite Hhex. reflexivity.
  - unfold Html.replaceEntities. rewrite N.eqb_refl.
    destruct (decimal cp) as [|x r] eqn:Hd; [congruence|].
    assert (Hx : Html.is_x x = false).
    { apply is_hex_not_x. cbn [forallb] in Hhex.
      apply andb_true_iff in Hhex. tauto. }
    rewrite Hx. unfold Html.int10. rewrite Hdig, Hval.
    unfold Html.numeric. rewrite (unichr_ok cp Hcp). reflexivity.
Qed.

Lemma hex_step x cp tail :
  Html.is_x x = true -> cp <= m ->
  Html.sub_entities m 0
    (Char.amp :: Char.hash :: x :: hexadecimal cp ++ Char.semicolon :: tail)
  = rbind (Html.sub_entities m 0 tail) (fun rest => inr (cp :: rest)).
Proof.
  intros Hx Hcp. destruct (hexadecimal_facts cp) as (Hne & Hhex & Hgrp & Hval).
  change (Char.amp :: Char.hash :: x :: hexadecimal cp ++ Char.semicolon :: tail)
    with (Char.amp :: (Char.hash :: x :: hexadecimal cp) ++ Char.semicolon :: tail).
  assert (Hxw : group_char x = true).
  { unfold Html.is_x in Hx. apply orb_true_iff in Hx.
    destruct Hx as [Hx|Hx]; apply N.eqb_eq in Hx; subst x; reflexivity. }
  assert (Halt : Html.alt (hexadecimal cp) = true).
  { unfold Html.alt. destruct (hexadecimal cp); [congruence|].
    rewrite Hhex. reflexivity. }
  rewrite (entity_step (Char.hash :: x :: hexadecimal cp) [cp]); [reflexivity| | |].
  - cbn [forallb]. rewrite Hxw, Hgrp. reflexivity.
  - unfold Html.group_ok. rewrite N.eqb_refl. unfold Html.opt_x.
    rewrite Hx, Halt. apply orb_true_r.
  - unfold Html.replaceEntities. rewrite N.eqb_refl, Hx.
    rewrite (int16_hex _ Hne Hhex), Hval.
    unfold Html.numeric. rewrite (unichr_ok cp Hcp). reflexivity.
Qed.

Lemma entity_facts name cp :
  entity name cp -> entity_ok (name, cp) = true.
Proof.
  intros [Hin|[-> ->]]; [|reflexivity].
  pose proof entity_table_ok as H. rewrite forallb_forall in H.
  exact (H _ Hin).
Qed.

Lemma name_step name cp tail :
  entity name cp ->
  Html.sub_entities m 0 (Char.amp :: lit name ++ Char.semicolon :: tail)
  = rbind (Html.sub_entities m 0 tail) (fun rest => inr (cp :: rest)).
Proof.
  intros He. apply entity_facts in He. unfold entity_ok in He.
  cbn [fst snd] in He. cbv zeta in He.
  apply andb_true_iff in He. destruct He as [He Hlook].
  apply andb_true_iff in He. destruct He as [He Hhead].
  apply andb_true_iff in He. destruct He as [Hg Hok].
  rewrite (entity_step (lit name) [cp]); [reflexivity|exact Hg|exact Hok|].
  unfold Html.replaceEntities. destruct (lit name) as [|c r]; [discriminate|].
  apply negb_true_iff in Hhead. rewrite Hhead.
  destruct (Html.entitydefs (c :: r)) as [c'|]; [|discriminate].
  apply N.eqb_eq in Hlook. subst c'. reflexivity.
Qed.

Lemma sub_entities_decodes e p :
  escapes_to m e p -> Html.sub_entities m 0 e = inr p.
Proof.
  induction 1 as [|c e p Hc _ IH|name cp e p He _ IH|cp e p Hcp _ IH
                  |x cp e p Hx Hcp _ IH].
  - reflexivity.
  - cbn [Html.sub_entities]. apply N.eqb_neq in Hc. rewrite Hc, IH. reflexivity.
  - rewrite (name_step name cp e He), IH. reflexivity.
  - rewrite (decimal_step cp e Hcp), IH. reflexivity.
  - rewrite (hex_step x cp e Hx Hcp), IH. reflexivity.
Qed.

Lemma escapes_without_amp e p :
  escapes_to m e p -> Html.has_amp e = false -> e = p.
Proof.
  unfold Html.has_amp.
  induction 1 as [|c e p Hc _ IH| | |]; intros Ha;
    try (cbn [existsb] in Ha; rewrite N.eqb_refl in Ha; discriminate Ha).
  - reflexivity.
  - cbn [existsb] in Ha. apply orb_false_iff in Ha. destruct Ha as [_ Ha].
    rewrite (IH Ha). reflexivity.
Qed.

Lemma unescape_decodes e p :
  escapes_to m e p -> Html.unescape m (PStr e) = inr (PStr p).
Proof.
  intros H. unfold Html.unescape. destruct (Html.has_amp e) eqn:Ha; cbn [negb].
  - rewrite (sub_entities_decodes e p H). reflexivity.
  - rewrite (escapes_without_amp e p H Ha). reflexivity.
Qed.
End References.

Section Coercion.
Variable E : Env.

Lemma py_int_nan f : Prim2SF f = S754_nan -> py_int E (PFloat f) = inl ValueError.
Proof.
  intros H. unfold py_int, float_trunc. rewrite H.
  rewrite FloatAxioms.eqb_spec, H. reflexivity.
Qed.

Lemma py_int_infinity f s :
  Prim2SF f = S754_infinity s -> py_int E (PFloat f) = inl OverflowError.
Proof.
  intros H. unfold py_int, float_trunc. rewrite H.
  rewrite FloatAxioms.eqb_spec, H. destruct s; reflexivity.
Qed.

Lemma py_int_finite f s mant e :
  Prim2SF f = S754_finite s mant e ->
  py_int E (PFloat f)
  = inr (let v := if (0 <=? e)%Z then Z.pos mant * 2 ^ e
                  else Z.pos mant / 2 ^ (- e) in
         if s then - v else v)%Z.
Proof.
  intros H. unfold py_int, float_trunc. rewrite H. cbv zeta.
  destruct (0 <=? e)%Z eqn:He.
  - apply Z.leb_le in He. rewrite Z.shiftl_mul_pow2 by exact He. reflexivity.
  - apply Z.leb_gt in He. rewrite Z.shiftr_div_pow2 by lia. reflexivity.
Qed.
End Coercion.

(** C9: for a record whose [shortname] and [url] write two texts with
    character references (named as in HTML 4, decimal or hexadecimal), the
    mapped Answer holds the two texts with every reference replaced by its
    character, and [clicks] as an integer: an integer as it is, true and
    false as 1 and 0, a float cut toward zero, a text as [int] reads it; a
    text that [int] rejects and a NaN raise [ValueError], an infinity raises
    [OverflowError], null, a list and an object raise [TypeError].  A
    [shortname] ["a&amp;b"] maps to ["a&b"]. *)
Theorem handle_answer_unescapes (E : Env) (sn sn' url url' : ustring) :
  escapes_to (maxunicode E) sn sn' ->
  escapes_to (maxunicode E) url url' ->
  let mapped c := handle_answer E (record (PStr sn) (PStr url) c) in
  let answer n : result Answer := inr (mkAnswer (PStr sn') (PStr url') n) in
  (forall n, mapped (PInt n) = answer n)
  /\ (forall b : bool, mapped (PBool b) = answer (if b then 1 else 0)%Z)
  /\ (forall s n, int_of_text E s = Some n -> mapped (PStr s) = answer n)
  /\ (forall s, int_of_text E s = None -> mapped (PStr s) = inl ValueError)
  /\ (forall f s, Prim2SF f = S754_zero s -> mapped (PFloat f) = answer 0%Z)
  /\ (forall f s mant e,
         Prim2SF f = S754_finite s mant e ->
         mapped (PFloat f)
         = answer (let v := if (0 <=? e)%Z then Z.pos mant * 2 ^ e
                            else Z.pos mant / 2 ^ (- e) in
                   if s then - v else v)%Z)
  /\ (forall f s, Prim2SF f = S754_infinity s -> mapped (PFloat f) = inl OverflowError)
  /\ (forall f, Prim2SF f = S754_nan -> mapped (PFloat f) = inl ValueError)
  /\ mapped PNone = inl TypeError
  /\ (forall l, mapped (PList l) = inl TypeError)
  /\ (forall d, mapped (PDict d) = inl TypeError)
  /\ (mapped (PFloat 2.75) = answer 2%Z /\ mapped (PFloat (-2.75)) = answer (-2)%Z
      /\ mapped (PFloat 1e3) = answer 1000%Z /\ mapped (PFloat 0.5) = answer 0%Z
      /\ mapped (PFloat (-0.0)) = answer 0%Z)
  /\ handle_answer E (record (PStr (lit "a&amp;b"))
                             (PStr (lit "&lt;&gt;&quot;&apos;&nbsp;&eacute;&euro;&hearts;"))
                             (PBool true))
     = inr (mkAnswer (PStr (lit "a&b"))
                     (PStr [60; 62; 34; 39; 160; 233; 8364; 9829]) 1).
Proof.
  intros Hsn Hurl mapped answer.
  assert (Hmap : forall c, mapped c = rbind (py_int E c) answer).
  { intros c. subst mapped answer. cbv beta. unfold record.
    rewrite handle_answer_record. unfold unescape.
    rewrite (unescape_decodes _ _ _ Hsn), (unescape_decodes _ _ _ Hurl).
    reflexivity. }
  split; [intros n; rewrite Hmap; reflexivity|].
  split; [intros b; rewrite Hmap; reflexivity|].
  split; [intros s n Hs; rewrite Hmap; cbn [py_int]; rewrite Hs; reflexivity|].
  split; [intros s Hs; rewrite Hmap; cbn [py_int]; rewrite Hs; reflexivity|].
  split; [intros f s Hf; rewrite Hmap; unfold py_int, float_trunc; rewrite Hf;
          reflexivity|].
  split; [intros f s mant e Hf; rewrite Hmap, (py_int_finite E f s mant e Hf);
          reflexivity|].
  split; [intros f s Hf; rewrite Hmap, (py_int_infinity E f s Hf); reflexivity|].
  split; [intros f Hf; rewrite Hmap, (py_int_nan E f Hf); reflexivity|].
  split; [rewrite Hmap; reflexivity|].
  split; [intros l; rewrite Hmap; reflexivity|].
  split; [intros d; rewrite Hmap; reflexivity|].
  split; [|vm_compute; reflexivity].
  rewrite !Hmap. repeat split; vm_compute; reflexivity.
Qed.

Lemma handle_answer_unescapes_witness :
  let E := Demo.env false 200 None in
  let sn := lit "a&amp;b &lt;&#8364;&#x41;" in
  let sn' := lit "a&b <" ++ [8364; 65] in
  let url := lit "http://x/?p=1&amp;q=2" in
  let url' := lit "http://x/?p=1&q=2" in
  escapes_to (maxunicode E) sn sn'
  /\ escapes_to (maxunicode E) url url'
  /\ handle_answer E (record (PStr sn) (PStr url) (PFloat 41.75))
     = inr (mkAnswer (PStr sn') (PStr url') 41).
Proof.
  intros E sn sn' url url'.
  assert (Hamp : entity "amp" 38) by (left; right; left; reflexivity).
  assert (Hlt : entity "lt" 60) by (left; right; right; left; reflexivity).
  assert (H1 : escapes_to (maxunicode E) sn sn').
  { apply (esc_char _ 97); [discriminate|].
    apply (esc_name _ "amp" 38 _ _ Hamp).
    apply (esc_char _ 98); [discriminate|].
    apply (esc_char _ 32); [discriminate|].
    apply (esc_name _ "lt" 60 _ _ Hlt).
    apply (esc_decimal _ 8364); [vm_compute; discriminate|].
    apply (esc_hex _ 120 65); [reflexivity|vm_compute; discriminate|].
    apply esc_end. }
  assert (H2 : escapes_to (maxunicode E) url url').
  { do 13 (apply esc_char; [discriminate|]).
    apply (esc_name _ "amp" 38 _ _ Hamp).
    do 3 (apply esc_char; [discriminate|]). apply esc_end. }
  split; [exact H1|]. split; [exact H2|].
  destruct (handle_answer_unescapes E sn sn' url url' H1 H2)
    as (_ & _ & _ & _ & _ & Hfin & _).
  rewrite (Hfin 41.75%float false 5875790138834944%positive (-47)%Z);
    [reflexivity|vm_compute; reflexivity].
Defined.

(** ** Running the script filter *)

Section Run.
Variable E : Env.

Lemma set_items_same w l : l = items w -> set_items l w = w.
Proof. intros ->. destruct w; reflexivity. Qed.

Lemma render_loop l w :
  for_each l (fun a => bind (lift (answer_item E a)) add_item) w =
  match rmap (answer_item E) l with
  | inr its => (inr tt, set_items (items w ++ its) w)
  | inl e => (inl e, set_items (items w ++ rendered_before E l) w)
  end.
Proof.
  revert w. induction l as [|a r IH]; intros w.
  - cbn. rewrite set_items_same by apply app_nil_r. reflexivity.
  - cbn [for_each rmap rendered_before]. unfold bind at 1 2, lift, rbind.
    destruct (answer_item E a) as [e|it].
    + rewrite set_items_same by apply app_nil_r. reflexivity.
    + unfold add_item at 1. rewrite IH. cbn [items set_items].
      destruct (rmap (answer_item E) r) as [e|its];
        unfold set_items; cbn; rewrite <- app_assoc; reflexivity.
Qed.

Lemma show_results_run ans w :
  show_results E ans w =
  match rmap (answer_item E) (answers_iter ans) with
  | inr its =>
    (inr tt, set_feedback (Some (shown E (items w) its))
                          (set_items (shown E (items w) its) w))
  | inl e =>
    (inl e, set_items (items w ++ rendered_before E (answers_iter ans)) w)
  end.
Proof.
  unfold show_results. unfold bind at 1. rewrite render_loop.
  destruct (rmap (answer_item E) (answers_iter ans)) as [e|its]; [reflexivity|].
  unfold bind, warn_empty, send_feedback, add_item, shown. cbn [items set_items].
  destruct (items w ++ its); reflexivity.
Qed.

Lemma do_search_run args w :
  dir_ready E args (started E w) = true ->
  do_search E args w =
  bind (cached_data (search_key E args)
                    (get_answers E (strip args) (MAX_RESULTS E))
                    (CACHE_MAX_AGE E))
       (show_results E) (prepared E args w).
Proof.
  unfold dir_ready, do_search, prepared, started, key_dir, search_key.
  intros Hd. unfold bind at 1.
  assert (Hs : (if update_available E then add_item update_item else ret tt) w
               = (inr tt, if update_available E
                          then set_items (items w ++ [update_item]) w else w))
    by (destruct (update_available E); reflexivity).
  rewrite Hs. unfold bind at 1. rewrite cache_key_run. cbv zeta.
  destruct (bool_decide _) eqn:Hb; [reflexivity|].
  cbn [orb] in Hd. rewrite Hd. reflexivity.
Qed.

Lemma prepared_cache args w : cache (prepared E args w) = cache w.
Proof.
  unfold prepared, started.
  destruct (update_available E), (bool_decide _); reflexivity.
Qed.

Lemma prepared_now args w : now (prepared E args w) = now w.
Proof.
  unfold prepared, started.
  destruct (update_available E), (bool_decide _); reflexivity.
Qed.

Lemma prepared_requests args w : requests (prepared E args w) = requests w.
Proof.
  unfold prepared, started.
  destruct (update_available E), (bool_decide _); reflexivity.
Qed.

Lemma prepared_feedback args w : feedback (prepared E args w) = feedback w.
Proof.
  unfold prepared, started.
  destruct (update_available E), (bool_decide _); reflexivity.
Qed.

Lemma prepared_items args w : items (prepared E args w) = items (started E w).
Proof.
  unfold prepared. destruct (bool_decide _); reflexivity.
Qed.

(** [show_results] touches the item list and the feedback only. *)
Lemma show_results_frame ans w :
  let w' := snd (show_results E ans w) in
  cache w' = cache w /\ requests w' = requests w /\ now w' = now w.
Proof.
  rewrite show_results_run.
  destruct (rmap (answer_item E) (answers_iter ans)); cbn; auto.
Qed.

(** A usable entry: no request, the stored answers are shown. *)
Lemma do_search_hit args w written data :
  dir_ready E args (started E w) = true ->
  cache w !! search_key E args = Some (written, data) ->
  (now w - written < CACHE_MAX_AGE E)%Z ->
  do_search E args w = show_results E data (prepared E args w).
Proof.
  intros Hd Hc Hage. rewrite do_search_run by assumption.
  unfold bind, cached_data. rewrite prepared_cache, prepared_now, Hc.
  apply Z.ltb_lt in Hage. rewrite Hage. reflexivity.
Qed.

(** No usable entry: one request; its answers are stored with the current
    time and shown, its error is raised. *)
Lemma do_search_miss args w :
  dir_ready E args (started E w) = true ->
  match cache w !! search_key E args with
  | Some (written, _) => (CACHE_MAX_AGE E <= now w - written)%Z
  | None => True
  end ->
  let w1 := set_requests
              (requests w ++ [search_request E (strip args) (MAX_RESULTS E)])
              (prepared E args w) in
  do_search E args w =
  match fetched E (strip args) (MAX_RESULTS E) with
  | inl e => (inl e, w1)
  | inr o =>
    show_results E (answers_of o)
      (set_cache (<[ search_key E args := (now w, answers_of o) ]> (cache w)) w1)
  end.
Proof.
  intros Hd Hc w1. rewrite do_search_run by assumption.
  unfold bind at 1. unfold cached_data. rewrite prepared_cache, prepared_now.
  assert (Hregen :
    bind (get_answers E (strip args) (MAX_RESULTS E))
         (fun data => bind (cache_data (search_key E args) data)
                           (fun _ => ret data)) (prepared E args w)
    = match fetched E (strip args) (MAX_RESULTS E) with
      | inl e => (inl e, w1)
      | inr o => (inr (answers_of o),
                  set_cache (<[ search_key E args := (now w, answers_of o) ]>
                               (cache w)) w1)
      end).
  { unfold bind at 1. rewrite get_answers_run, prepared_requests. fold w1.
    destruct (fetched E (strip args) (MAX_RESULTS E)) as [e|o]; [reflexivity|].
    assert (Hw : forall a, bind (cache_data (search_key E args) a)
                                (fun _ => ret a) w1
                           = (inr a, set_cache (<[ search_key E args := (now w, a) ]>
                                                  (cache w)) w1)).
    { intros a. unfold bind, cache_data, ret. subst w1. cbn [cache now set_requests].
      rewrite prepared_cache, prepared_now. reflexivity. }
    destruct o as [recs|]; apply Hw. }
  destruct (cache w !! search_key E args) as [[written data]|].
  - apply Z.ltb_ge in Hc. rewrite Hc, Hregen.
    destruct (fetched E (strip args) (MAX_RESULTS E)); reflexivity.
  - rewrite Hregen. destruct (fetched E (strip args) (MAX_RESULTS E)); reflexivity.
Qed.

Lemma rmap_fails {A B} (f : A -> result B) l x :
  In x l -> (exists e, f x = inl e) -> exists e, rmap f l = inl e.
Proof.
  intros Hin [e He]. induction l as [|y r IH]; [destruct Hin|].
  cbn. unfold rbind. destruct Hin as [->|Hin].
  - rewrite He. eauto.
  - destruct (f y); [eauto|]. destruct (IH Hin) as [e' ->]. eauto.
Qed.

Lemma handle_answer_missing kv field :
  In field [lit "shortname"; lit "url"; lit "clicks"] ->
  dict_get kv field = None ->
  exists e, handle_answer E (PDict kv) = inl e.
Proof.
  intros Hin Hnone. unfold handle_answer, rbind, getitem.
  destruct Hin as [<-|[<-|[<-|[]]]].
  - rewrite Hnone. eauto.
  - destruct (dict_get kv (lit "shortname")); [|eauto].
    destruct (unescape E p); [eauto|]. rewrite Hnone. eauto.
  - destruct (dict_get kv (lit "shortname")); [|eauto].
    destruct (unescape E p); [eauto|].
    destruct (dict_get kv (lit "url")); [|eauto].
    destruct (unescape E p1); [eauto|]. rewrite Hnone. eauto.
Qed.

Lemma api_failure_fetched query limit r :
  server E (search_request E query limit) = inr r ->
  api_failure E r ->
  exists e, fetched E query limit = inl e.
Proof.
  intros Hr Hf. unfold fetched, rbind. rewrite Hr.
  destruct Hf as [Hs|Hj|data sites ds kv field Hj Ht Hsites Hds Hin Hfield Hnone].
  - rewrite Hs. eauto.
  - destruct (success r); [|eauto]. rewrite Hj. eauto.
  - destruct (success r); [|eauto]. rewrite Hj, Ht. cbn.
    unfold api_records, rbind. rewrite Hsites, Hds.
    destruct (rmap_fails (handle_answer E) ds (PDict kv) Hin
                         (handle_answer_missing kv field Hfield Hnone)) as [e ->].
    eauto.
Qed.
End Run.

(** C3: an entry written at time [written] is used, without any request, at
    every time strictly before [written + CACHE_MAX_AGE]; from
    [written + CACHE_MAX_AGE] on it is not used: the API is asked, and what it
    returns is stored with the current time. *)
Theorem cache_entry_ttl (E : Env) (args : ustring) (w : World) (written : Z)
        (data : answers) :
  dir_ready E args (started E w) = true ->
  cache w !! search_key E args = Some (written, data) ->
  ((now w < written + CACHE_MAX_AGE E)%Z ->
   do_search E args w = show_results E data (prepared E args w)
   /\ requests (snd (do_search E args w)) = requests w
   /\ cache (snd (do_search E args w)) = cache w)
  /\ ((written + CACHE_MAX_AGE E <= now w)%Z ->
      requests (snd (do_search E args w))
      = requests w ++ [search_request E (strip args) (MAX_RESULTS E)]
      /\ forall o, fetched E (strip args) (MAX_RESULTS E) = inr o ->
                   cache (snd (do_search E args w))
                   = <[ search_key E args := (now w, answers_of o) ]> (cache w)).
Proof.
  intros Hd Hc. split.
  - intros Hnow.
    assert (Hhit : do_search E args w = show_results E data (prepared E args w))
      by (apply (do_search_hit E args w written data); [assumption..|lia]).
    split; [exact Hhit|]. rewrite Hhit.
    destruct (show_results_frame E data (prepared E args w)) as (Hca & Hrq & _).
    rewrite Hca, Hrq, prepared_cache, prepared_requests. auto.
  - intros Hnow.
    assert (Hmiss := do_search_miss E args w Hd).
    rewrite Hc in Hmiss. specialize (Hmiss ltac:(lia)). cbv zeta in Hmiss.
    rewrite Hmiss. split.
    + destruct (fetched E (strip args) (MAX_RESULTS E)) as [e|o]; [reflexivity|].
      match goal with
      | |- context [show_results E ?a ?w0] =>
        destruct (show_results_frame E a w0) as (_ & Hrq & _); rewrite Hrq
      end.
      reflexivity.
    + intros o ->.
      match goal with
      | |- context [show_results E ?a ?w0] =>
        destruct (show_results_frame E a w0) as (Hca & _ & _); rewrite Hca
      end.
      reflexivity.
Qed.

(** C5: when no valid entry exists and the API answers with a status outside
    2xx, with a body that is not JSON, or with a record that lacks
    [shortname], [url] or [clicks], [do_search] raises; the one request was
    sent once, nothing was written to the cache, no answer was added to the
    item list and nothing was sent to Alfred. *)
Theorem api_failure_is_fatal (E : Env) (args : ustring) (w : World) (r : Response) :
  dir_ready E args (started E w) = true ->
  no_valid_entry E args w ->
  server E (search_request E (strip args) (MAX_RESULTS E)) = inr r ->
  api_failure E r ->
  exists e w',
    do_search E args w = (inl e, w')
    /\ requests w' = requests w ++ [search_request E (strip args) (MAX_RESULTS E)]
    /\ cache w' = cache w
    /\ items w' = items (started E w)
    /\ feedback w' = feedback w.
Proof.
  intros Hd Hstale Hr Hf.
  destruct (api_failure_fetched E _ _ r Hr Hf) as [e He].
  pose proof (do_search_miss E args w Hd Hstale) as Hmiss. cbv zeta in Hmiss.
  rewrite He in Hmiss. eexists _, _. split; [exact Hmiss|].
  cbn [requests cache items feedback set_requests].
  rewrite prepared_cache, prepared_items, prepared_feedback. auto.
Qed.

Section Rendering.
Variable E : Env.

Lemma format_ascii v : ascii_text v = true -> format_field E v = inr (text_of v).
Proof.
  destruct v; cbn; try discriminate. intros ->. reflexivity.
Qed.

Lemma answer_item_plain a : plain a = true -> answer_item E a = inr (result_item a).
Proof.
  unfold plain, answer_item, result_item, rbind. intros H.
  apply andb_true_iff in H. destruct H as [Hs Hl].
  rewrite (format_ascii _ Hl), (format_ascii _ Hs). reflexivity.
Qed.

Lemma rmap_plain l :
  forallb plain l = true -> rmap (answer_item E) l = inr (map result_item l).
Proof.
  induction l as [|a r IH]; [reflexivity|]. cbn [forallb rmap map].
  intros H. apply andb_true_iff in H. destruct H as [Ha Hr].
  rewrite (answer_item_plain a Ha), (IH Hr). reflexivity.
Qed.
End Rendering.

(** C6 (as the code has it): every Answer whose shortname and link are ASCII
    text is added to the item list, in order, as an item with title its
    shortname, subtitle "(clicks) link", arg "http://go/" and its shortname,
    uid its link; the list is then sent.  The "No Answers Found" advisory is
    sent alone when the list would otherwise be empty, that is when there is
    no Answer and no item (the update notice) was added before. *)
Theorem show_results_items (E : Env) (ans : answers) (w : World) :
  forallb plain (answers_iter ans) = true ->
  let out := shown E (items w) (map result_item (answers_iter ans)) in
  show_results E ans w = (inr tt, set_feedback (Some out) (set_items out w))
  /\ (answers_iter ans <> [] -> out = items w ++ map result_item (answers_iter ans))
  /\ (answers_iter ans = [] -> items w = [] -> out = [advisory E])
  /\ (answers_iter ans = [] -> items w <> [] -> out = items w).
Proof.
  intros Hp out. split.
  - rewrite show_results_run, (rmap_plain E _ Hp). reflexivity.
  - subst out. unfold shown. split; [|split].
    + intros Hne. destruct (answers_iter ans) as [|a r]; [congruence|].
      destruct (items w); reflexivity.
    + intros -> ->. reflexivity.
    + intros -> Hne. cbn [map]. rewrite app_nil_r.
      destruct (items w); [congruence|reflexivity].
Qed.

(** C7: a query that is empty after trimming takes the same path as any
    other: with no valid entry, one request goes out with [short_name] empty
    and the configured [limit]; what the API returns is stored and shown, and
    an error of the API is raised. *)
Theorem empty_query_not_special (E : Env) (args : ustring) (w : World) :
  strip args = [] ->
  dir_ready E args (started E w) = true ->
  no_valid_entry E args w ->
  let rq := mkRequest (API_URL E)
                      [(lit "short_name", PStr []); (lit "limit", PInt (MAX_RESULTS E))]
                      [(lit "User-Agent", USER_AGENT (wf_version E) HELP_URL)] in
  requests (snd (do_search E args w)) = requests w ++ [rq]
  /\ (forall e, server E rq = inl e -> fst (do_search E args w) = inl e)
  /\ (forall o its,
         fetched E [] (MAX_RESULTS E) = inr o ->
         rmap (answer_item E) (answers_iter (answers_of o)) = inr its ->
         fst (do_search E args w) = inr tt
         /\ feedback (snd (do_search E args w))
            = Some (shown E (items (started E w)) its)
         /\ cache (snd (do_search E args w))
            = <[ search_key E args := (now w, answers_of o) ]> (cache w)).
Proof.
  intros Hempty Hd Hstale rq.
  pose proof (do_search_miss E args w Hd Hstale) as Hmiss. cbv zeta in Hmiss.
  rewrite Hempty in Hmiss.
  change (search_request E [] (MAX_RESULTS E)) with rq in Hmiss.
  rewrite Hmiss. split; [|split].
  - destruct (fetched E [] (MAX_RESULTS E)) as [e|o]; [reflexivity|].
    match goal with
    | |- context [show_results E ?a ?w0] =>
      destruct (show_results_frame E a w0) as (_ & Hrq & _); rewrite Hrq
    end.
    reflexivity.
  - intros e He. unfold fetched, rbind.
    change (search_request E [] (MAX_RESULTS E)) with rq. rewrite He. reflexivity.
  - intros o its -> Hits. rewrite show_results_run, Hits.
    cbn [fst snd feedback cache items set_feedback set_items set_cache set_requests].
    rewrite prepared_items. auto.
Qed.

Lemma cache_entry_ttl_witness :
  let E := Demo.env false 200 (Some (Demo.payload Demo.bugs)) in
  let args := lit "bugs" in
  let key := search_key E args in
  let w119 := Demo.world_with 119 key 100 Demo.stored in
  let w120 := Demo.world_with 120 key 100 Demo.stored in
  (dir_ready E args (started E w119) = true
   /\ cache w119 !! key = Some (100%Z, Demo.stored)
   /\ (now w119 < 100 + CACHE_MAX_AGE E)%Z
   /\ requests (snd (do_search E args w119)) = [])
  /\ (dir_ready E args (started E w120) = true
      /\ cache w120 !! key = Some (100%Z, Demo.stored)
      /\ (100 + CACHE_MAX_AGE E <= now w120)%Z
      /\ requests (snd (do_search E args w120)) = [search_request E args 50]).
Proof.
  intros E args key w119 w120.
  assert (Hd1 : dir_ready E args (started E w119) = true) by (vm_compute; reflexivity).
  assert (Hc1 : cache w119 !! key = Some (100%Z, Demo.stored)) by (vm_compute; reflexivity).
  assert (Hn1 : (now w119 < 100 + CACHE_MAX_AGE E)%Z) by (vm_compute; reflexivity).
  assert (Hd2 : dir_ready E args (started E w120) = true) by (vm_compute; reflexivity).
  assert (Hc2 : cache w120 !! key = Some (100%Z, Demo.stored)) by (vm_compute; reflexivity).
  assert (Hn2 : (100 + CACHE_MAX_AGE E <= now w120)%Z) by (vm_compute; discriminate).
  split.
  - repeat (split; [assumption|]).
    exact (proj1 (proj2 (proj1 (cache_entry_ttl E args w119 100 Demo.stored Hd1 Hc1) Hn1))).
  - repeat (split; [assumption|]).
    exact (proj1 (proj2 (cache_entry_ttl E args w120 100 Demo.stored Hd2 Hc2) Hn2)).
Defined.

Lemma api_failure_is_fatal_witness :
  let E := Demo.env false 200 (Some (Demo.payload [Demo.site "b" "http://x/b" 2;
                                                   Demo.no_url])) in
  let args := lit "bugs" in
  let w := Demo.world 0 in
  let r := mkResponse 200 (Some (Demo.payload [Demo.site "b" "http://x/b" 2;
                                               Demo.no_url])) in
  dir_ready E args (started E w) = true
  /\ no_valid_entry E args w
  /\ server E (search_request E (strip args) (MAX_RESULTS E)) = inr r
  /\ api_failure E r
  /\ exists e w',
       do_search E args w = (inl e, w')
       /\ requests w' = requests w ++ [search_request E (strip args) (MAX_RESULTS E)]
       /\ cache w' = cache w
       /\ items w' = items (started E w)
       /\ feedback w' = feedback w.
Proof.
  intros E args w r.
  assert (Hd : dir_ready E args (started E w) = true) by (vm_compute; reflexivity).
  assert (Hs : no_valid_entry E args w) by (vm_compute; exact I).
  assert (Hr : server E (search_request E (strip args) (MAX_RESULTS E)) = inr r)
    by reflexivity.
  assert (Hf : api_failure E r).
  { eapply (bad_record E r _ _ _ _ (lit "url")).
    - reflexivity.
    - reflexivity.
    - reflexivity.
    - reflexivity.
    - right. left. reflexivity.
    - right. left. reflexivity.
    - reflexivity. }
  repeat (split; [assumption|]).
  exact (api_failure_is_fatal E args w r Hd Hs Hr Hf).
Defined.

Lemma show_results_items_witness :
  let E := Demo.env false 200 None in
  let a := mkAnswer (PStr (lit "bugtracker")) (PStr (lit "http://x/1")) 10 in
  forallb plain [a] = true
  /\ show_results E (AnswerList [a]) (Demo.world 0)
     = (inr tt,
        set_feedback
          (Some [mkItem (PStr (lit "bugtracker")) (lit "(10) http://x/1")
                        (Some (lit "http://go/bugtracker")) None
                        (Some (PStr (lit "http://x/1"))) true (Some (lit "icon.png"))])
          (set_items
             [mkItem (PStr (lit "bugtracker")) (lit "(10) http://x/1")
                     (Some (lit "http://go/bugtracker")) None
                     (Some (PStr (lit "http://x/1"))) true (Some (lit "icon.png"))]
             (Demo.world 0))).
Proof.
  intros E a.
  assert (Hp : forallb plain (answers_iter (AnswerList [a])) = true) by reflexivity.
  split; [exact Hp|].
  exact (proj1 (show_results_items E (AnswerList [a]) (Demo.world 0) Hp)).
Defined.

(** C6 (as stated) fails: when an update is available and the API returns no
    site, the sequence of Answers is empty and yet the only item sent is the
    update notice; no "No Answers Found" item is emitted. *)
Lemma no_advisory_after_update_notice :
  let E := Demo.env true 200 (Some (Demo.payload [])) in
  let r := do_search E (lit "nothing") (Demo.world 0) in
  fst r = inr tt
  /\ cache (snd r) !! search_key E (lit "nothing") = Some (0%Z, AnswerList [])
  /\ feedback (snd r) = Some [update_item]
  /\ ~ In (advisory E) [update_item].
Proof.
  cbv zeta. split; [vm_compute; reflexivity|].
  split; [vm_compute; reflexivity|].
  split; [vm_compute; reflexivity|].
  intros [H|[]]. discriminate H.
Qed.

(** A shortname that is not ASCII after unescaping cannot be formatted into
    the byte-string template: the run raises and nothing is sent. *)
Lemma non_ascii_shortname_raises :
  let E := Demo.env false 200
             (Some (Demo.payload [Demo.site "caf&eacute;" "http://x/1" 1])) in
  let r := do_search E (lit "cafe") (Demo.world 0) in
  fst r = inl UnicodeEncodeError /\ feedback (snd r) = None.
Proof.
  cbv zeta. split; vm_compute; reflexivity.
Qed.

Lemma empty_query_not_special_witness :
  let E := Demo.env false 200 (Some (Demo.payload Demo.bugs)) in
  let args := lit "  " in
  let w := Demo.world 0 in
  strip args = []
  /\ dir_ready E args (started E w) = true
  /\ no_valid_entry E args w
  /\ requests (snd (do_search E args w))
     = [mkRequest (API_URL E)
                  [(lit "short_name", PStr []); (lit "limit", PInt 50)]
                  [(lit "User-Agent", USER_AGENT (wf_version E) HELP_URL)]].
Proof.
  intros E args w.
  assert (He : strip args = []) by reflexivity.
  assert (Hd : dir_ready E args (started E w) = true) by (vm_compute; reflexivity).
  assert (Hs : no_valid_entry E args w) by (vm_compute; exact I).
  repeat (split; [assumption|]).
  exact (proj1 (empty_query_not_special E args w He Hd Hs)).
Defined.

(** ** Further properties of the normalizer and the key *)

(** X1: whatever the decomposition does, [asciify] returns ASCII characters
    only. *)
Theorem asciify_only_ascii (E : Env) (s : basestring) :
  Forall (fun c => c < 128) (asciify E s).
Proof.
  rewrite asciify_fold.
  eapply Forall_impl; [apply (filter_all Char.is_ascii)|].
  cbn. intros c Hc. apply N.ltb_lt. exact Hc.
Qed.

Lemma hex_digit_lower n : n < 16 -> is_hex_lower (MD5.hex_digit n) = true.
Proof.
  intros Hn. unfold MD5.hex_digit, is_hex_lower, Char.is_digit, in_range.
  destruct (n <? 10) eqn:Hlt.
  - apply N.ltb_lt in Hlt.
    assert (H1 : (48 <=? 48 + n) = true) by (apply N.leb_le; lia).
    assert (H2 : (48 + n <=? 57) = true) by (apply N.leb_le; lia).
    rewrite H1, H2. reflexivity.
  - apply N.ltb_ge in Hlt.
    assert (H1 : (97 <=? 87 + n) = true) by (apply N.leb_le; lia).
    assert (H2 : (87 + n <=? 102) = true) by (apply N.leb_le; lia).
    rewrite H1, H2. apply orb_true_r.
Qed.

(** X2: [_hash] returns exactly 12 characters, each a lowercase hexadecimal
    digit, for text and for byte strings alike. *)
Theorem hash_is_12_hex_digits (s : basestring) :
  List.length (_hash s) = 12%nat
  /\ Forall (fun c => is_hex_lower c = true) (_hash s).
Proof.
  split; [apply hash_length|].
  unfold _hash. apply Forall_take. unfold MD5.hexdigest.
  induction (MD5.digest _) as [|b r IH]; cbn; [constructor|].
  repeat constructor; auto using hex_digit_lower, low_nibble, high_nibble.
Qed.

(** X4: [cache_key] touches nothing but the set of directories, which only
    grows.  It returns the key with the key's directory in place, or, when
    the directory is missing and cannot be made, raises [OSError] and leaves
    the world as it was. *)
Theorem cache_key_effects (E : Env) (q : basestring) (w : World) :
  let r := cache_key E q w in
  let d := dirname (cachefile E (cache_key_text E q)) in
  cache (snd r) = cache w
  /\ requests (snd r) = requests w
  /\ items (snd r) = items w
  /\ feedback (snd r) = feedback w
  /\ now (snd r) = now w
  /\ (dirs w ⊆ dirs (snd r))
  /\ ((fst r = inr (cache_key_text E q) /\ (d ∈ dirs (snd r))
       /\ dirs (snd r) = dirs w ∪ {[ d ]})
      \/ (fst r = inl OSError /\ (d ∉ dirs w) /\ makedirs_ok E d = false
          /\ snd r = w)).
Proof.
  cbv zeta. rewrite cache_key_run. cbv zeta.
  destruct (bool_decide _) eqn:Hd.
  - apply bool_decide_eq_true in Hd. cbn [fst snd].
    do 5 (split; [reflexivity|]). split; [reflexivity|].
    left. split; [reflexivity|]. split; [exact Hd|].
    symmetry. rewrite union_comm_L.
    apply subseteq_union_1_L, singleton_subseteq_l. exact Hd.
  - apply bool_decide_eq_false in Hd. destruct (makedirs_ok E _) eqn:Hm.
    + cbn [fst snd set_dirs cache requests items feedback now dirs].
      do 5 (split; [reflexivity|]). split; [apply union_subseteq_l|].
      left. split; [reflexivity|]. split; [|reflexivity].
      apply elem_of_union_r, elem_of_singleton. reflexivity.
    + cbn [fst snd]. do 5 (split; [reflexivity|]). split; [reflexivity|].
      right. auto.
Qed.

(** ** Further properties of the API client *)

(** X5: [api_call] sends exactly one request, carrying the parameters and the
    User-Agent header, and changes nothing else.  The status is checked
    before the body is read: a status outside 2xx raises [HTTPError] with
    that status even when the body is JSON; with a 2xx status the parsed
    body is returned, or [ValueError] raised when it is not JSON; a failed
    connection raises its own error. *)
Theorem api_call_checks_status_first (E : Env) (url : ustring)
        (params : list (ustring * pyval)) (w : World) :
  let r := api_call E url params w in
  let rq := url_request E url params in
  snd r = set_requests (requests w ++ [rq]) w
  /\ (forall e, server E rq = inl e -> fst r = inl e)
  /\ (forall resp, server E rq = inr resp -> success resp = false ->
                   fst r = inl (HTTPError (status_code resp)))
  /\ (forall resp v, server E rq = inr resp -> success resp = true ->
                     json_body resp = Some v -> fst r = inr v)
  /\ (forall resp, server E rq = inr resp -> success resp = true ->
                   json_body resp = None -> fst r = inl ValueError).
Proof.
  cbv zeta.
  unfold api_call, get_url, web_get, raise_for_status, json, url_request,
    success, bind, ret, throw.
  cbn. destruct (server E _) as [e|resp] eqn:Hs; cbn.
  - split; [reflexivity|]. split; [intros e' [= ->]; reflexivity|].
    repeat split; intros; discriminate.
  - destruct ((200 <=? status_code resp)%Z && (status_code resp <? 300)%Z) eqn:Hok;
      cbn.
    + destruct (json_body resp) as [v|] eqn:Hj; cbn.
      * split; [reflexivity|]. split; [intros; discriminate|].
        split; [intros r' [= <-] Hf; congruence|].
        split; [intros r' v' [= <-] _ Hv; congruence|].
        intros r' [= <-] _ Hv; congruence.
      * split; [reflexivity|]. split; [intros; discriminate|].
        split; [intros r' [= <-] Hf; congruence|].
        split; [intros r' v' [= <-] _ Hv; congruence|].
        intros r' [= <-] _ _; reflexivity.
    + split; [reflexivity|]. split; [intros; discriminate|].
      split; [intros r' [= <-] _; reflexivity|].
      split; [intros r' v' [= <-] Hf; congruence|].
      intros r' [= <-] Hf; congruence.
Qed.

(** ** Further properties of the record mapping *)

(** X6: a record that is not a JSON object raises [TypeError]; an object
    raises [KeyError] for the first of [shortname], [url], [clicks] it
    lacks, provided the fields before it unescape; a [clicks] of [null]
    raises [TypeError]. *)
Theorem handle_answer_errors (E : Env) :
  (forall d, match d with
             | PDict _ => True
             | _ => handle_answer E d = inl TypeError
             end)
  /\ (forall kv, dict_get kv (lit "shortname") = None ->
                 handle_answer E (PDict kv) = inl (KeyError (lit "shortname")))
  /\ (forall kv sn sn',
         dict_get kv (lit "shortname") = Some sn -> unescape E sn = inr sn' ->
         dict_get kv (lit "url") = None ->
         handle_answer E (PDict kv) = inl (KeyError (lit "url")))
  /\ (forall kv sn sn' url url',
         dict_get kv (lit "shortname") = Some sn -> unescape E sn = inr sn' ->
         dict_get kv (lit "url") = Some url -> unescape E url = inr url' ->
         (dict_get kv (lit "clicks") = None ->
          handle_answer E (PDict kv) = inl (KeyError (lit "clicks")))
         /\ (dict_get kv (lit "clicks") = Some PNone ->
             handle_answer E (PDict kv) = inl TypeError)).
Proof.
  split; [intros d; destruct d; try exact I; reflexivity|].
  unfold handle_answer, getitem, rbind, raise. split; [intros kv ->; reflexivity|].
  split.
  - intros kv sn sn' -> -> ->. reflexivity.
  - intros kv sn sn' url url' -> -> -> ->. split; intros ->; reflexivity.
Qed.

Section UnescapeFacts.
Variable m : N.

Lemma skipn_In {A} n (l : list A) x r : skipn n l = x :: r -> In x l.
Proof.
  intros H. rewrite <- (firstn_skipn n l), H. apply in_or_app. right. left.
  reflexivity.
Qed.

Lemma match_entity_needs_semicolon r :
  Forall (fun c => c <> Char.semicolon) r -> Html.match_entity r = None.
Proof.
  intros Hr. unfold Html.match_entity.
  destruct (skipn _ r) as [|c x] eqn:Hs; [reflexivity|].
  apply skipn_In in Hs. rewrite List.Forall_forall in Hr. apply Hr in Hs.
  apply N.eqb_neq in Hs. rewrite Hs. reflexivity.
Qed.

Lemma sub_entities_no_semicolon s :
  Forall (fun c => c <> Char.semicolon) s -> Html.sub_entities m 0 s = inr s.
Proof.
  induction 1 as [|c r Hc Hr IH]; [reflexivity|].
  cbn [Html.sub_entities]. rewrite (match_entity_needs_semicolon r Hr), IH.
  destruct (c =? Char.amp); reflexivity.
Qed.

Lemma sub_entities_amp tail :
  Html.sub_entities m 0 (Char.amp :: lit "amp;" ++ tail)
  = rbind (Html.sub_entities m 0 tail) (fun rest => inr (Char.amp :: rest)).
Proof. reflexivity. Qed.

Lemma sub_entities_escaped s : Html.sub_entities m 0 (escape_amp s) = inr s.
Proof.
  induction s as [|c r IH]; [reflexivity|].
  unfold escape_amp. cbn [flat_map]. fold (escape_amp r).
  destruct (c =? Char.amp) eqn:Hc.
  - apply N.eqb_eq in Hc. subst c.
    change (lit "&amp;" ++ escape_amp r)
      with (Char.amp :: lit "amp;" ++ escape_amp r).
    rewrite sub_entities_amp, IH. reflexivity.
  - change ([c] ++ escape_amp r) with (c :: escape_amp r).
    cbn [Html.sub_entities]. rewrite Hc, IH. reflexivity.
Qed.

Lemma escape_amp_clean s : Html.has_amp s = false -> escape_amp s = s.
Proof.
  unfold Html.has_amp, escape_amp. induction s as [|c r IH]; [reflexivity|].
  cbn [existsb flat_map]. intros H. apply orb_false_iff in H.
  destruct H as [Hc Hr]. rewrite N.eqb_sym in Hc. rewrite Hc, (IH Hr).
  reflexivity.
Qed.

Lemma has_amp_escaped s : Html.has_amp (escape_amp s) = Html.has_amp s.
Proof.
  unfold Html.has_amp, escape_amp. induction s as [|c r IH]; [reflexivity|].
  cbn [flat_map existsb]. destruct (c =? Char.amp) eqn:Hc.
  - rewrite N.eqb_sym in Hc. rewrite Hc. reflexivity.
  - cbn [app existsb]. rewrite IH. reflexivity.
Qed.

Lemma unescape_escaped s :
  Html.unescape m (PStr (escape_amp s)) = inr (PStr s).
Proof.
  unfold Html.unescape. rewrite has_amp_escaped.
  destruct (Html.has_amp s) eqn:Ha; cbn [negb].
  - rewrite sub_entities_escaped. reflexivity.
  - rewrite escape_amp_clean by assumption. reflexivity.
Qed.

Lemma unescape_no_semicolon s :
  Forall (fun c => c <> Char.semicolon) s ->
  Html.unescape m (PStr s) = inr (PStr s).
Proof.
  intros Hs. unfold Html.unescape.
  destruct (negb (Html.has_amp s)); [reflexivity|].
  rewrite sub_entities_no_semicolon by assumption. reflexivity.
Qed.
End UnescapeFacts.

(** X7: the mapping undoes the API's escaping of ['&']: a record whose
    [shortname] and [url] are any two texts with each ['&'] written as
    [&amp;] maps to the Answer holding the two texts themselves. *)
Theorem handle_answer_inverts_escaping (E : Env) (name url : ustring) (n : Z) :
  handle_answer E (PDict [(lit "shortname", PStr (escape_amp name));
                          (lit "url", PStr (escape_amp url));
                          (lit "clicks", PInt n)])
  = inr (mkAnswer (PStr name) (PStr url) n).
Proof.
  rewrite handle_answer_record. unfold unescape.
  rewrite !unescape_escaped. reflexivity.
Qed.

(** X8: text that holds no [';'] is kept as it is: a [url] with bare ['&']
    between its query parameters, or a [shortname] with one, reaches the
    Answer unchanged. *)
Theorem handle_answer_keeps_plain_text (E : Env) (name url : ustring) (n : Z) :
  Forall (fun c => c <> Char.semicolon) name ->
  Forall (fun c => c <> Char.semicolon) url ->
  handle_answer E (PDict [(lit "shortname", PStr name); (lit "url", PStr url);
                          (lit "clicks", PInt n)])
  = inr (mkAnswer (PStr name) (PStr url) n).
Proof.
  intros Hn Hu. rewrite handle_answer_record. unfold unescape.
  rewrite !unescape_no_semicolon by assumption. reflexivity.
Qed.

Lemma handle_answer_keeps_plain_text_witness :
  let E := Demo.env false 200 None in
  handle_answer E (PDict [(lit "shortname", PStr (lit "r&d"));
                          (lit "url", PStr (lit "http://x/?a=1&b=2"));
                          (lit "clicks", PInt 4)])
  = inr (mkAnswer (PStr (lit "r&d")) (PStr (lit "http://x/?a=1&b=2")) 4).
Proof.
  intros E.
  apply (handle_answer_keeps_plain_text E (lit "r&d") (lit "http://x/?a=1&b=2") 4).
  - repeat constructor; discriminate.
  - repeat constructor; discriminate.
Defined.

(** ** Further properties of the fetch *)

Section SortFacts.
Context {A K : Type} (le : K -> K -> bool) (key : A -> K).

Lemma insert_by_perm x l : Permutation (x :: l) (insert_by le key x l).
Proof.
  induction l as [|y r IH]; cbn; [reflexivity|].
  destruct (le (key x) (key y)); [reflexivity|].
  rewrite <- IH. apply perm_swap.
Qed.

Lemma sort_by_perm l : Permutation l (sort_by le key l).
Proof.
  induction l as [|x r IH]; cbn; [reflexivity|].
  rewrite <- insert_by_perm. constructor. exact IH.
Qed.
End SortFacts.

(** X11: sorting neither drops nor repeats an answer: the list returned is a
    permutation of the mapped records, with as many elements as the payload
    has sites that map. *)
Theorem get_answers_loses_nothing (E : Env) (query : ustring) (limit : Z)
        (w : World) (recs : list Answer) :
  fetched E query limit = inr (Some recs) ->
  exists l, returns (get_answers E query limit) w (AnswerList l)
            /\ Permutation recs l
            /\ List.length l = List.length recs.
Proof.
  intros Hf. exists (sort_by bool_le sort_key recs). split; [|split].
  - unfold returns. rewrite get_answers_run, Hf. reflexivity.
  - apply sort_by_perm.
  - symmetry. apply Permutation_length, sort_by_perm.
Qed.

Lemma get_answers_loses_nothing_witness :
  let E := Demo.env false 200 (Some (Demo.payload Demo.bugs)) in
  exists l, returns (get_answers E (lit "bugs") 50) (Demo.world 0) (AnswerList l)
            /\ List.length l = 2%nat.
Proof.
  intros E.
  assert (H : fetched E (lit "bugs") 50
              = inr (Some [mkAnswer (PStr (lit "bugtracker")) (PStr (lit "http://x/1")) 10;
                           mkAnswer (PStr (lit "bugzilla")) (PStr (lit "http://x/2")) 2]))
    by (vm_compute; reflexivity).
  destruct (get_answers_loses_nothing E (lit "bugs") 50 (Demo.world 0) _ H)
    as (l & Hl & _ & Hlen).
  exists l. split; [exact Hl|exact Hlen].
Defined.

(** X10: a truthy payload must be an object with a [sites] member: an object
    without one raises [KeyError] for [sites], any other truthy value (a
    list, a number, a text) raises [TypeError]; either way after the one
    request. *)
Theorem get_answers_needs_sites (E : Env) (query : ustring) (limit : Z)
        (w : World) (r : Response) (data : pyval) :
  server E (search_request E query limit) = inr r ->
  success r = true ->
  json_body r = Some data ->
  truthy data = true ->
  requests (snd (get_answers E query limit w))
  = requests w ++ [search_request E query limit]
  /\ match data with
     | PDict d =>
       dict_get d (lit "sites") = None ->
       fst (get_answers E query limit w) = inl (KeyError (lit "sites"))
     | _ => fst (get_answers E query limit w) = inl TypeError
     end.
Proof.
  intros Hs Hok Hj Ht. rewrite get_answers_run. split; [reflexivity|].
  unfold fetched, rbind. rewrite Hs, Hok, Hj, Ht. cbn [negb fst].
  unfold api_records, rbind, getitem.
  destruct data; try reflexivity. intros ->. reflexivity.
Qed.

Lemma get_answers_needs_sites_witness :
  let data := PDict [(lit "items", PList [])] in
  let E := Demo.env false 200 (Some data) in
  fst (get_answers E (lit "x") 50 (Demo.world 0)) = inl (KeyError (lit "sites")).
Proof.
  intros data E.
  apply (proj2 (get_answers_needs_sites E (lit "x") 50 (Demo.world 0)
                  (mkResponse 200 (Some data)) data
                  eq_refl eq_refl eq_refl eq_refl)).
  reflexivity.
Defined.

(** ** Further properties of the run *)

Section RunFacts.
Variable E : Env.

Lemma started_frame w :
  cache (started E w) = cache w /\ requests (started E w) = requests w
  /\ feedback (started E w) = feedback w /\ now (started E w) = now w
  /\ dirs (started E w) = dirs w.
Proof. unfold started. destruct (update_available E); cbn; auto. Qed.

Lemma prepared_dirs args w :
  dirs w ⊆ dirs (prepared E args w)
  /\ (dir_ready E args (started E w) = true -> key_dir E args ∈ dirs (prepared E args w)).
Proof.
  unfold prepared, dir_ready.
  destruct (started_frame w) as (_ & _ & _ & _ & Hd). rewrite Hd.
  destruct (bool_decide _) eqn:Hb.
  - apply bool_decide_eq_true in Hb. rewrite ?Hd. split; [reflexivity|auto].
  - cbn [set_dirs dirs]. rewrite ?Hd. split.
    + apply union_subseteq_l.
    + intros _. apply elem_of_union_r, elem_of_singleton. reflexivity.
Qed.

Lemma show_results_dirs ans w : dirs (snd (show_results E ans w)) = dirs w.
Proof.
  rewrite show_results_run.
  destruct (rmap (answer_item E) (answers_iter ans)); reflexivity.
Qed.

Lemma shown_nonempty before its : shown E before its <> [].
Proof.
  unfold shown. destruct (before ++ its); discriminate.
Qed.

Lemma do_search_no_dir args w :
  dir_ready E args (started E w) = false ->
  do_search E args w = (inl OSError, started E w).
Proof.
  unfold dir_ready, do_search, started, key_dir, search_key.
  intros Hd. apply orb_false_iff in Hd. destruct Hd as [Hb Hm].
  unfold bind at 1.
  assert (Hs : (if update_available E then add_item update_item else ret tt) w
               = (inr tt, if update_available E
                          then set_items (items w ++ [update_item]) w else w))
    by (destruct (update_available E); reflexivity).
  rewrite Hs. unfold bind at 1. rewrite cache_key_run. cbv zeta.
  rewrite Hb, Hm. reflexivity.
Qed.

(** The world in which the answers of a fetch are shown. *)
Lemma do_search_outcome args w :
  let key := search_key E args in
  let w1 := set_requests
              (requests w ++ [search_request E (strip args) (MAX_RESULTS E)])
              (prepared E args w) in
  (dir_ready E args (started E w) = false
   /\ do_search E args w = (inl OSError, started E w))
  \/ (dir_ready E args (started E w) = true
      /\ exists written data,
           cache w !! key = Some (written, data)
           /\ (now w - written < CACHE_MAX_AGE E)%Z
           /\ do_search E args w = show_results E data (prepared E args w))
  \/ (dir_ready E args (started E w) = true
      /\ no_valid_entry E args w
      /\ exists e, fetched E (strip args) (MAX_RESULTS E) = inl e
                   /\ do_search E args w = (inl e, w1))
  \/ (dir_ready E args (started E w) = true
      /\ no_valid_entry E args w
      /\ exists o, fetched E (strip args) (MAX_RESULTS E) = inr o
                   /\ do_search E args w
                      = show_results E (answers_of o)
                          (set_cache (<[ key := (now w, answers_of o) ]> (cache w)) w1)).
Proof.
  cbv zeta. destruct (dir_ready E args (started E w)) eqn:Hd.
  2: { left. split; [reflexivity|]. apply do_search_no_dir. exact Hd. }
  right.
  assert (Hcases : (exists written data,
                       cache w !! search_key E args = Some (written, data)
                       /\ (now w - written < CACHE_MAX_AGE E)%Z)
                   \/ no_valid_entry E args w).
  { unfold no_valid_entry.
    destruct (cache w !! search_key E args) as [[written data]|]; [|right; exact I].
    destruct (Z.lt_ge_cases (now w - written) (CACHE_MAX_AGE E)); [left; eauto|right; assumption]. }
  destruct Hcases as [(written & data & Hc & Hage)|Hstale].
  - left. split; [reflexivity|]. exists written, data.
    split; [exact Hc|]. split; [exact Hage|].
    apply (do_search_hit E args w written data Hd Hc Hage).
  - right. pose proof (do_search_miss E args w Hd Hstale) as Hm. cbv zeta in Hm.
    destruct (fetched E (strip args) (MAX_RESULTS E)) as [e|o] eqn:Hf.
    + left. split; [reflexivity|]. split; [exact Hstale|]. eauto.
    + right. split; [reflexivity|]. split; [exact Hstale|]. eauto.
Qed.
End RunFacts.

(** X12: whatever makes [do_search] raise (the directory, the request, the
    payload, a record, the formatting of an item), nothing has been sent to
    Alfred when it does. *)
Theorem do_search_raises_sends_nothing (E : Env) (args : ustring) (w : World)
        (e : exn) :
  fst (do_search E args w) = inl e ->
  feedback (snd (do_search E args w)) = feedback w.
Proof.
  intros He.
  destruct (do_search_outcome E args w)
    as [[_ H]|[(_ & wr & data & _ & _ & H)|[(_ & _ & e' & _ & H)|(_ & _ & o & _ & H)]]];
    rewrite H in *.
  - cbn [snd]. apply started_frame.
  - rewrite show_results_run in *.
    destruct (rmap (answer_item E) (answers_iter data)); [|discriminate].
    cbn [snd feedback set_items]. apply prepared_feedback.
  - cbn [snd feedback set_requests]. apply prepared_feedback.
  - rewrite show_results_run in *.
    destruct (rmap (answer_item E) (answers_iter (answers_of o))); [|discriminate].
    cbn [snd feedback set_items set_cache set_requests]. apply prepared_feedback.
Qed.

Lemma do_search_raises_sends_nothing_witness :
  let E := Demo.env false 500 (Some (Demo.payload Demo.bugs)) in
  fst (do_search E (lit "bugs") (Demo.world 0)) = inl (HTTPError 500)
  /\ feedback (snd (do_search E (lit "bugs") (Demo.world 0))) = None.
Proof.
  intros E.
  assert (H : fst (do_search E (lit "bugs") (Demo.world 0)) = inl (HTTPError 500))
    by (vm_compute; reflexivity).
  split; [exact H|].
  exact (do_search_raises_sends_nothing E (lit "bugs") (Demo.world 0) _ H).
Defined.

(** X13: when [do_search] returns, Alfred has been sent the workflow's item
    list and that list is never empty; if an update is available and the
    process had added no item before, its first item is the update notice. *)
Theorem do_search_sends_items (E : Env) (args : ustring) (w : World) :
  fst (do_search E args w) = inr tt ->
  exists l, feedback (snd (do_search E args w)) = Some l
            /\ items (snd (do_search E args w)) = l
            /\ l <> []
            /\ (update_available E = true -> items w = [] ->
                exists rest, l = update_item :: rest).
Proof.
  intros Hok.
  assert (Hshow : forall ans w0,
             items w0 = items (started E w) ->
             fst (show_results E ans w0) = inr tt ->
             exists l, feedback (snd (show_results E ans w0)) = Some l
                       /\ items (snd (show_results E ans w0)) = l
                       /\ l <> []
                       /\ (update_available E = true -> items w = [] ->
                           exists rest, l = update_item :: rest)).
  { intros ans w0 Hit Hfst. rewrite show_results_run in *.
    destruct (rmap (answer_item E) (answers_iter ans)) as [|its]; [discriminate|].
    cbn [snd feedback items set_feedback set_items]. eexists.
    split; [reflexivity|]. split; [reflexivity|].
    split; [apply shown_nonempty|]. intros Hu Hw. rewrite Hit.
    unfold started. rewrite Hu. cbn [items set_items]. rewrite Hw.
    unfold shown. cbn [app]. eauto. }
  destruct (do_search_outcome E args w)
    as [[_ H]|[(_ & wr & data & _ & _ & H)|[(_ & _ & e' & _ & H)|(_ & _ & o & _ & H)]]];
    rewrite H in *; try discriminate.
  - apply Hshow; [apply prepared_items|assumption].
  - apply Hshow; [|assumption]. cbn [items set_cache set_requests].
    apply prepared_items.
Qed.

Lemma do_search_sends_items_witness :
  let E := Demo.env true 200 (Some (Demo.payload Demo.bugs)) in
  let r := do_search E (lit "bugs") (Demo.world 0) in
  fst r = inr tt
  /\ exists l, feedback (snd r) = Some l /\ l <> []
               /\ exists rest, l = update_item :: rest.
Proof.
  intros E r.
  assert (H : fst r = inr tt) by (vm_compute; reflexivity).
  split; [exact H|].
  destruct (do_search_sends_items E (lit "bugs") (Demo.world 0) H)
    as (l & Hf & _ & Hne & Hupd).
  exists l. split; [exact Hf|]. split; [exact Hne|].
  exact (Hupd eq_refl eq_refl).
Defined.

(** X14: one run of [do_search] sends at most one request, the search
    request of the trimmed query; it writes the cache store at its own key
    only; directories are never removed and the clock is not touched. *)
Theorem do_search_frame (E : Env) (args : ustring) (w : World) :
  let w' := snd (do_search E args w) in
  (requests w' = requests w
   \/ requests w' = requests w ++ [search_request E (strip args) (MAX_RESULTS E)])
  /\ (forall k, k <> search_key E args -> cache w' !! k = cache w !! k)
  /\ (dirs w ⊆ dirs w')
  /\ now w' = now w.
Proof.
  cbv zeta.
  destruct (do_search_outcome E args w)
    as [[_ H]|[(_ & wr & data & _ & _ & H)|[(_ & _ & e' & _ & H)|(_ & _ & o & _ & H)]]];
    rewrite H.
  - cbn [snd]. destruct (started_frame E w) as (Hc & Hr & _ & Hn & Hd).
    rewrite Hc, Hr, Hn, Hd. auto.
  - destruct (show_results_frame E data (prepared E args w)) as (Hc & Hr & Hn).
    rewrite Hc, Hr, Hn, show_results_dirs, prepared_cache, prepared_requests,
      prepared_now.
    split; [auto|]. split; [auto|]. split; [apply prepared_dirs|reflexivity].
  - cbn [snd requests cache dirs now set_requests].
    rewrite prepared_cache, prepared_now.
    split; [auto|]. split; [auto|]. split; [apply prepared_dirs|reflexivity].
  - match goal with
    | |- context [show_results E ?a ?w0] =>
      destruct (show_results_frame E a w0) as (Hc & Hr & Hn);
        rewrite Hc, Hr, Hn, show_results_dirs
    end.
    cbn [requests cache dirs now set_requests set_cache].
    rewrite prepared_now.
    split; [auto|]. split.
    + intros k Hk. apply lookup_insert_ne. congruence.
    + split; [apply prepared_dirs|reflexivity].
Qed.

(** X17: when the directory of the key does not exist and cannot be made,
    [do_search] raises [OSError] before anything else happens: no request is
    sent, the cache store is untouched and nothing is sent to Alfred. *)
Theorem do_search_without_directory (E : Env) (args : ustring) (w : World) :
  key_dir E args ∉ dirs w ->
  makedirs_ok E (key_dir E args) = false ->
  fst (do_search E args w) = inl OSError
  /\ requests (snd (do_search E args w)) = requests w
  /\ cache (snd (do_search E args w)) = cache w
  /\ feedback (snd (do_search E args w)) = feedback w.
Proof.
  intros Hnot Hm.
  destruct (started_frame E w) as (Hc & Hr & Hf & _ & Hd).
  assert (Hready : dir_ready E args (started E w) = false).
  { unfold dir_ready. rewrite Hd, Hm, bool_decide_false by assumption. reflexivity. }
  rewrite (do_search_no_dir E args w Hready). cbn [fst snd]. auto.
Qed.

Lemma do_search_without_directory_witness :
  let E := mkEnv Demo.nfd_latin1 Demo.int_decimal (fun _ => lit "<object>")
                 1114111 (lit "http://api") 50 20 (lit "/readonly")
                 (fun _ => false) (lit "1.0") false (lit "warn.icns")
                 (fun _ => inr (mkResponse 200 None)) in
  fst (do_search E (lit "bugs") (Demo.world 0)) = inl OSError
  /\ requests (snd (do_search E (lit "bugs") (Demo.world 0))) = [].
Proof.
  intros E.
  assert (H1 : key_dir E (lit "bugs") ∉ dirs (Demo.world 0)) by apply not_elem_of_empty.
  assert (H2 : makedirs_ok E (key_dir E (lit "bugs")) = false) by reflexivity.
  destruct (do_search_without_directory E (lit "bugs") (Demo.world 0) H1 H2)
    as (Ha & Hb & _).
  split; [exact Ha|exact Hb].
Defined.

Lemma fetched_falsy (E : Env) query limit r data :
  server E (search_request E query limit) = inr r ->
  success r = true -> json_body r = Some data -> truthy data = false ->
  fetched E query limit = inr None.
Proof.
  intros Hs Hok Hj Ht. unfold fetched, rbind. rewrite Hs, Hok, Hj, Ht. reflexivity.
Qed.

(** X9: a falsy payload (null, false, 0, an empty text, list or object) is
    an empty result, not an error: with no valid entry, [do_search] returns,
    stores the empty dict under the key with the current time, and sends the
    items added before or, when there is none, the advisory alone. *)
Theorem falsy_payload_is_empty_result (E : Env) (args : ustring) (w : World)
        (r : Response) (data : pyval) :
  dir_ready E args (started E w) = true ->
  no_valid_entry E args w ->
  server E (search_request E (strip args) (MAX_RESULTS E)) = inr r ->
  success r = true ->
  json_body r = Some data ->
  truthy data = false ->
  fst (do_search E args w) = inr tt
  /\ feedback (snd (do_search E args w)) = Some (shown E (items (started E w)) [])
  /\ cache (snd (do_search E args w))
     = <[ search_key E args := (now w, EmptyDict) ]> (cache w).
Proof.
  intros Hd Hstale Hs Hok Hj Ht.
  pose proof (do_search_miss E args w Hd Hstale) as Hm. cbv zeta in Hm.
  rewrite (fetched_falsy E _ _ r data Hs Hok Hj Ht) in Hm. rewrite Hm.
  rewrite show_results_run. cbn [answers_of answers_iter rmap fst snd].
  cbn [feedback cache items set_feedback set_items set_cache set_requests].
  rewrite prepared_items. auto.
Qed.

Lemma falsy_payload_is_empty_result_witness :
  let E := Demo.env false 200 (Some (PDict [])) in
  let w := Demo.world 5 in
  let r := do_search E (lit "bugs") w in
  fst r = inr tt
  /\ feedback (snd r) = Some [advisory E]
  /\ cache (snd r) !! search_key E (lit "bugs") = Some (5%Z, EmptyDict).
Proof.
  intros E w r.
  assert (Hd : dir_ready E (lit "bugs") (started E w) = true) by (vm_compute; reflexivity).
  assert (Hs : no_valid_entry E (lit "bugs") w) by (vm_compute; exact I).
  destruct (falsy_payload_is_empty_result E (lit "bugs") w
              (mkResponse 200 (Some (PDict []))) (PDict [])
              Hd Hs eq_refl eq_refl eq_refl eq_refl) as (H1 & H2 & H3).
  split; [exact H1|]. split; [exact H2|].
  fold r in H3. rewrite H3. apply lookup_insert_eq.
Defined.

(** X18: the answers are written to the cache before they are rendered: when
    the fetch succeeds but an Answer cannot be formatted, [do_search] raises
    with the answers already stored under the key and nothing sent. *)
Theorem format_failure_is_cached (E : Env) (args : ustring) (w : World)
        (o : option (list Answer)) (e : exn) :
  dir_ready E args (started E w) = true ->
  no_valid_entry E args w ->
  fetched E (strip args) (MAX_RESULTS E) = inr o ->
  rmap (answer_item E) (answers_iter (answers_of o)) = inl e ->
  fst (do_search E args w) = inl e
  /\ cache (snd (do_search E args w))
     = <[ search_key E args := (now w, answers_of o) ]> (cache w)
  /\ feedback (snd (do_search E args w)) = feedback w.
Proof.
  intros Hd Hstale Hf He.
  pose proof (do_search_miss E args w Hd Hstale) as Hm. cbv zeta in Hm.
  rewrite Hf in Hm. rewrite Hm, show_results_run, He.
  cbn [fst snd feedback cache set_items set_cache set_requests].
  rewrite prepared_feedback. auto.
Qed.

Lemma format_failure_is_cached_witness :
  let E := Demo.env false 200
             (Some (Demo.payload [Demo.site "caf&eacute;" "http://x/1" 1])) in
  let w := Demo.world 0 in
  let a := mkAnswer (PStr [99; 97; 102; 233]) (PStr (lit "http://x/1")) 1 in
  fst (do_search E (lit "cafe") w) = inl UnicodeEncodeError
  /\ cache (snd (do_search E (lit "cafe") w)) !! search_key E (lit "cafe")
     = Some (0%Z, AnswerList [a]).
Proof.
  intros E w a.
  assert (Hd : dir_ready E (lit "cafe") (started E w) = true) by (vm_compute; reflexivity).
  assert (Hs : no_valid_entry E (lit "cafe") w) by (vm_compute; exact I).
  assert (Hf : fetched E (strip (lit "cafe")) (MAX_RESULTS E) = inr (Some [a]))
    by (vm_compute; reflexivity).
  assert (He : rmap (answer_item E) (answers_iter (answers_of (Some [a])))
               = inl UnicodeEncodeError) by (vm_compute; reflexivity).
  destruct (format_failure_is_cached E (lit "cafe") w (Some [a]) _ Hd Hs Hf He)
    as (H1 & H2 & _).
  split; [exact H1|]. rewrite H2. apply lookup_insert_eq.
Defined.

(** X16: a successful fetch is reused by the next process: when a fresh
    process with no valid entry fetched the answers, a second fresh process
    started less than [CACHE_MAX_AGE] seconds after it sends no request and
    ends exactly as the first did, with the same items sent or the same
    error raised. *)
Theorem second_run_reuses_cache (E : Env) (args : ustring) (w : World) (t : Z)
        (o : option (list Answer)) :
  fresh_process w ->
  dir_ready E args (started E w) = true ->
  no_valid_entry E args w ->
  fetched E (strip args) (MAX_RESULTS E) = inr o ->
  (t - now w < CACHE_MAX_AGE E)%Z ->
  let r1 := do_search E args w in
  let r2 := do_search E args (next_run t (snd r1)) in
  fst r2 = fst r1
  /\ feedback (snd r2) = feedback (snd r1)
  /\ requests (snd r2) = requests (snd r1)
  /\ requests (snd r1)
     = requests w ++ [search_request E (strip args) (MAX_RESULTS E)].
Proof.
  intros [Hitems Hfb] Hd Hstale Hf Hage r1 r2.
  pose proof (do_search_miss E args w Hd Hstale) as Hm. cbv zeta in Hm.
  rewrite Hf in Hm. set (a := answers_of o) in *.
  set (wA := set_cache _ _) in Hm.
  assert (HwA : cache wA = <[ search_key E args := (now w, a) ]> (cache w)
                /\ items wA = items (started E w)
                /\ feedback wA = None
                /\ dirs wA = dirs (prepared E args w)
                /\ requests wA
                   = requests w ++ [search_request E (strip args) (MAX_RESULTS E)]).
  { subst wA.
    cbn [cache items feedback dirs requests set_cache set_requests].
    rewrite prepared_items, prepared_feedback. auto. }
  destruct HwA as (HcA & HiA & HfA & HdA & HrA).
  destruct (show_results_frame E a wA) as (Hc1 & Hr1 & _).
  pose proof (show_results_dirs E a wA) as Hd1.
  set (w2 := next_run t (snd r1)).
  assert (Hr1eq : r1 = show_results E a wA) by exact Hm.
  assert (Hw2 : cache w2 = <[ search_key E args := (now w, a) ]> (cache w)
                /\ dirs w2 = dirs (prepared E args w)
                /\ requests w2 = requests (snd r1)
                /\ items w2 = [] /\ feedback w2 = None /\ now w2 = t).
  { subst w2. unfold next_run. cbn [cache dirs requests items feedback now].
    rewrite Hr1eq, Hc1, Hd1, HcA, HdA. auto 10. }
  destruct Hw2 as (Hc2 & Hd2 & Hr2 & Hi2 & Hf2 & Hn2).
  assert (Hready2 : dir_ready E args (started E w2) = true).
  { unfold dir_ready. destruct (started_frame E w2) as (_ & _ & _ & _ & Hds).
    rewrite Hds, Hd2.
    rewrite bool_decide_true by (apply (prepared_dirs E args w); exact Hd).
    reflexivity. }
  assert (Hlook : cache w2 !! search_key E args = Some (now w, a))
    by (rewrite Hc2; apply lookup_insert_eq).
  assert (Hhit : r2 = show_results E a (prepared E args w2)).
  { apply (do_search_hit E args w2 (now w) a Hready2 Hlook). rewrite Hn2. exact Hage. }
  assert (Hsame : items (prepared E args w2) = items wA).
  { rewrite prepared_items, HiA. unfold started.
    destruct (update_available E); cbn [items set_items]; rewrite Hi2, Hitems;
      reflexivity. }
  destruct (show_results_frame E a (prepared E args w2)) as (_ & Hrq2 & _).
  split; [|split; [|split]].
  - rewrite Hhit, Hr1eq, !show_results_run.
    destruct (rmap (answer_item E) (answers_iter a)); reflexivity.
  - rewrite Hhit, Hr1eq, !show_results_run.
    destruct (rmap (answer_item E) (answers_iter a)).
    + cbn [snd feedback set_items]. rewrite prepared_feedback, Hf2, HfA. reflexivity.
    + cbn [snd feedback set_feedback]. rewrite Hsame. reflexivity.
  - rewrite Hhit, Hrq2, prepared_requests. exact Hr2.
  - rewrite Hr1eq, Hr1. exact HrA.
Qed.

Lemma second_run_reuses_cache_witness :
  let E := Demo.env true 200 (Some (Demo.payload Demo.bugs)) in
  let w := Demo.world 100 in
  let r1 := do_search E (lit "bugs") w in
  let r2 := do_search E (lit "bugs") (next_run 119 (snd r1)) in
  fst r2 = fst r1
  /\ feedback (snd r2) = feedback (snd r1)
  /\ requests (snd r2) = [search_request E (lit "bugs") 50].
Proof.
  intros E w r1 r2.
  assert (Hfresh : fresh_process w) by (split; reflexivity).
  assert (Hd : dir_ready E (lit "bugs") (started E w) = true) by (vm_compute; reflexivity).
  assert (Hs : no_valid_entry E (lit "bugs") w) by (vm_compute; exact I).
  assert (Hf : fetched E (strip (lit "bugs")) (MAX_RESULTS E)
               = inr (Some [mkAnswer (PStr (lit "bugtracker")) (PStr (lit "http://x/1")) 10;
                            mkAnswer (PStr (lit "bugzilla")) (PStr (lit "http://x/2")) 2]))
    by (vm_compute; reflexivity).
  assert (Ht : (119 - now w < CACHE_MAX_AGE E)%Z) by (vm_compute; reflexivity).
  destruct (second_run_reuses_cache E (lit "bugs") w 119 _ Hfresh Hd Hs Hf Ht)
    as (H1 & H2 & H3 & H4).
  split; [exact H1|]. split; [exact H2|].
  fold r1 r2 in H3. rewrite H3. exact H4.
Defined.

(** ** Trimming the query *)

Section StripFacts.
Lemma lstrip_clean u : starts_clean (lstrip u).
Proof.
  induction u as [|c r IH]; [exact I|]. cbn [lstrip].
  destruct (Char.is_space c) eqn:Hc; [exact IH|]. exact Hc.
Qed.

Lemma lstrip_fixed u : starts_clean u -> lstrip u = u.
Proof.
  destruct u as [|c r]; [reflexivity|]. cbn. intros ->. reflexivity.
Qed.

Lemma lstrip_suffix u : exists sp, u = sp ++ lstrip u.
Proof.
  induction u as [|c r [sp IH]]; [exists []; reflexivity|]. cbn [lstrip].
  destruct (Char.is_space c).
  - exists (c :: sp). cbn. congruence.
  - exists []. reflexivity.
Qed.

Lemma strip_starts_clean u : starts_clean (strip u).
Proof.
  unfold strip. pose proof (lstrip_clean u) as Hv.
  destruct (lstrip_suffix (rev (lstrip u))) as [sp Hsp].
  set (t := lstrip (rev (lstrip u))) in *.
  assert (Hv' : lstrip u = rev t ++ rev sp).
  { rewrite <- (rev_involutive (lstrip u)), Hsp, rev_app_distr. reflexivity. }
  destruct (rev t) as [|c x]; [exact I|].
  rewrite Hv' in Hv. exact Hv.
Qed.

Lemma strip_ends_clean u : starts_clean (rev (strip u)).
Proof.
  unfold strip. rewrite rev_involutive. apply lstrip_clean.
Qed.

Lemma strip_idempotent u : strip (strip u) = strip u.
Proof.
  unfold strip at 1. rewrite (lstrip_fixed _ (strip_starts_clean u)).
  rewrite (lstrip_fixed _ (strip_ends_clean u)). apply rev_involutive.
Qed.
End StripFacts.

Lemma lstrip_app a b :
  lstrip (a ++ b) = match lstrip a with
                    | [] => lstrip b
                    | _ :: _ => lstrip a ++ b
                    end.
Proof.
  induction a as [|c r IH]; [reflexivity|]. cbn [app lstrip].
  destruct (Char.is_space c); [exact IH|reflexivity].
Qed.

Lemma lstrip_spaces sp : forallb Char.is_space sp = true -> lstrip sp = [].
Proof.
  induction sp as [|c r IH]; [reflexivity|]. cbn [forallb lstrip].
  intros H. apply andb_true_iff in H. destruct H as [-> Hr]. exact (IH Hr).
Qed.

Lemma strip_padding pre q post :
  forallb Char.is_space pre = true ->
  forallb Char.is_space post = true ->
  strip (pre ++ q ++ post) = strip q.
Proof.
  intros Hpre Hpost. unfold strip.
  rewrite lstrip_app, (lstrip_spaces pre Hpre), lstrip_app.
  destruct (lstrip q) as [|c x] eqn:Hq.
  - rewrite (lstrip_spaces post Hpost). reflexivity.
  - rewrite rev_app_distr, lstrip_app.
    assert (Hrev : forallb Char.is_space (rev post) = true).
    { rewrite forallb_forall in *. intros y Hy. apply Hpost.
      apply in_rev. exact Hy. }
    rewrite (lstrip_spaces _ Hrev). reflexivity.
Qed.

(** X15: whitespace around the argument does not matter: [do_search] on a
    query with whitespace before and after it behaves exactly as on the
    query itself; the trimmed query neither starts nor ends with whitespace,
    and trimming it again changes nothing. *)
Theorem surrounding_whitespace_ignored (E : Env) (pre q post : ustring) (w : World) :
  forallb Char.is_space pre = true ->
  forallb Char.is_space post = true ->
  do_search E (pre ++ q ++ post) w = do_search E q w
  /\ strip (pre ++ q ++ post) = strip q
  /\ strip (strip q) = strip q
  /\ starts_clean (strip q)
  /\ starts_clean (rev (strip q)).
Proof.
  intros Hpre Hpost.
  pose proof (strip_padding pre q post Hpre Hpost) as Hs.
  split; [unfold do_search; rewrite Hs; reflexivity|].
  split; [exact Hs|]. split; [apply strip_idempotent|].
  split; [apply strip_starts_clean|apply strip_ends_clean].
Qed.

Lemma surrounding_whitespace_ignored_witness :
  let E := Demo.env false 200 (Some (Demo.payload Demo.bugs)) in
  do_search E ([32; 9] ++ lit "bugs" ++ [160; 10]) (Demo.world 0)
  = do_search E (lit "bugs") (Demo.world 0).
Proof.
  intros E.
  exact (proj1 (surrounding_whitespace_ignored E [32; 9] (lit "bugs") [160; 10]
                  (Demo.world 0) eq_refl eq_refl)).
Defined.

(** ** UTF-8 *)

Lemma decodes2_all : check_from (N.to_nat 1920) 128 decodes2 = true.
Proof. vm_compute. reflexivity. Qed.

Lemma decodes3_all : check_from (N.to_nat 63488) 2048 decodes3 = true.
Proof. vm_compute. reflexivity. Qed.

Lemma decodes4_all : check_from (N.to_nat 1048576) 65536 decodes4 = true.
Proof. vm_compute. reflexivity. Qed.

Lemma decode_encode_char c rest :
  c <= 1114111 ->
  utf8_decode (utf8_encode_char c ++ rest) = c :: utf8_decode rest.
Proof.
  intros Hc. unfold utf8_encode_char.
  destruct (c <? 128) eqn:H1.
  { cbn [app utf8_decode]. rewrite H1. reflexivity. }
  apply N.ltb_ge in H1. destruct (c <? 2048) eqn:H2.
  { apply N.ltb_lt in H2.
    pose proof (check_from_sound _ _ _ decodes2_all c) as Hok.
    specialize (Hok ltac:(lia) ltac:(lia)). unfold decodes2 in Hok. cbv zeta in Hok.
    repeat (apply andb_true_iff in Hok; destruct Hok as [Hok ?]).
    repeat match goal with H : negb _ = true |- _ => apply negb_true_iff in H end.
    match goal with H : (_ =? c) = true |- _ => apply N.eqb_eq in H; rename H into Hv end.
    cbn [app utf8_decode].
    repeat match goal with H : _ = true |- _ => rewrite H; clear H
                      | H : _ = false |- _ => rewrite H; clear H end.
    rewrite Hv. reflexivity. }
  apply N.ltb_ge in H2. destruct (c <? 65536) eqn:H3.
  { apply N.ltb_lt in H3.
    pose proof (check_from_sound _ _ _ decodes3_all c) as Hok.
    specialize (Hok ltac:(lia) ltac:(lia)). unfold decodes3 in Hok. cbv zeta in Hok.
    apply andb_true_iff in Hok. destruct Hok as [Hok Hv]. apply N.eqb_eq in Hv.
    apply andb_true_iff in Hok. destruct Hok as [Hok Hc3].
    apply andb_true_iff in Hok. destruct Hok as [Hok Hl3].
    apply andb_true_iff in Hok. destruct Hok as [Hb Hl2].
    apply negb_true_iff in Hb. apply negb_true_iff in Hl2.
    cbn [app utf8_decode]. rewrite Hb, Hl2, Hl3, Hc3, Hv. reflexivity. }
  apply N.ltb_ge in H3.
  pose proof (check_from_sound _ _ _ decodes4_all c) as Hok.
  specialize (Hok ltac:(lia) ltac:(lia)). unfold decodes4 in Hok. cbv zeta in Hok.
  apply andb_true_iff in Hok. destruct Hok as [Hok Hv]. apply N.eqb_eq in Hv.
  apply andb_true_iff in Hok. destruct Hok as [Hok Hc4].
  apply andb_true_iff in Hok. destruct Hok as [Hok Hl4].
  apply andb_true_iff in Hok. destruct Hok as [Hok Hl3].
  apply andb_true_iff in Hok. destruct Hok as [Hb Hl2].
  apply negb_true_iff in Hb. apply negb_true_iff in Hl2. apply negb_true_iff in Hl3.
  cbn [app utf8_decode]. rewrite Hb, Hl2, Hl3, Hl4, Hc4, Hv. reflexivity.
Qed.

Lemma scalar_bound c : scalar c = true -> c <= 1114111.
Proof.
  unfold scalar, in_range. intros H. apply orb_true_iff in H.
  destruct H as [H|H].
  - apply N.ltb_lt in H. lia.
  - apply andb_true_iff in H. destruct H as [_ H]. apply N.leb_le in H. exact H.
Qed.

Lemma decode_encode u :
  forallb scalar u = true -> utf8_decode (utf8_encode u) = u.
Proof.
  unfold utf8_encode. induction u as [|c r IH]; [reflexivity|].
  cbn [forallb flat_map]. intros H. apply andb_true_iff in H.
  destruct H as [Hc Hr].
  rewrite decode_encode_char by (apply scalar_bound; exact Hc).
  rewrite (IH Hr). reflexivity.
Qed.

(** X3: decoding inverts encoding: for text made of Unicode scalar values,
    [unicodify] of its UTF-8 bytes is the text again; so a query given as
    UTF-8 bytes is folded, hashed and keyed exactly as the same query given
    as text. *)
Theorem bytes_and_text_agree (E : Env) (u : ustring) :
  forallb scalar u = true ->
  unicodify (PyStr (utf8_encode u)) = u
  /\ asciify E (PyStr (utf8_encode u)) = asciify E (PyUnicode u)
  /\ _hash (PyStr (utf8_encode u)) = _hash (PyUnicode u)
  /\ cache_key_text E (PyStr (utf8_encode u)) = cache_key_text E (PyUnicode u).
Proof.
  intros Hu. pose proof (decode_encode u Hu) as Hd.
  assert (Ha : asciify E (PyStr (utf8_encode u)) = asciify E (PyUnicode u)).
  { unfold asciify. cbn [unicodify]. rewrite Hd. reflexivity. }
  split; [exact Hd|]. split; [exact Ha|]. split; [reflexivity|].
  unfold cache_key_text. rewrite Ha. reflexivity.
Qed.

Lemma bytes_and_text_agree_witness :
  let E := Demo.env false 200 None in
  unicodify (PyStr [67; 97; 102; 195; 169]) = Demo.cafe_accent
  /\ cache_key_text E (PyStr [67; 97; 102; 195; 169])
     = cache_key_text E (PyUnicode Demo.cafe_accent).
Proof.
  intros E.
  destruct (bytes_and_text_agree E Demo.cafe_accent eq_refl) as (H1 & _ & _ & H4).
  split; [exact H1|exact H4].
Defined.

(** ** The directory of the cache files *)

Section Directory.
Variable E : Env.

Lemma drop_to_slash_clean r x :
  Forall (fun c => c <> Char.slash) r ->
  drop_to_slash (r ++ Char.slash :: x) = Char.slash :: x.
Proof.
  induction 1 as [|c r Hc Hr IH]; [reflexivity|].
  cbn [app drop_to_slash]. apply N.eqb_neq in Hc. rewrite Hc. exact IH.
Qed.

Lemma drop_slashes_search pre :
  drop_slashes (rev (pre ++ lit "search")) = rev (pre ++ lit "search").
Proof.
  rewrite rev_app_distr.
  change (rev (lit "search")) with (104 :: rev (lit "searc")).
  reflexivity.
Qed.

Lemma dirname_in_search pre rest :
  Forall (fun c => c <> Char.slash) rest ->
  dirname (pre ++ lit "search/" ++ rest) = pre ++ lit "search".
Proof.
  intros Hrest. unfold dirname.
  assert (Hrev : rev (pre ++ lit "search/" ++ rest)
                 = rev rest ++ Char.slash :: rev (pre ++ lit "search")).
  { change (lit "search/") with (lit "search" ++ [Char.slash]).
    rewrite !rev_app_distr. cbn [rev app]. rewrite <- !app_assoc. reflexivity. }
  rewrite Hrev, drop_to_slash_clean by (apply Forall_rev; exact Hrest).
  change (rev (Char.slash :: rev (pre ++ lit "search")))
    with (rev (rev (pre ++ lit "search")) ++ [Char.slash]).
  rewrite rev_involutive.
  assert (Hs : forallb (N.eqb Char.slash) (lit "search") = false) by reflexivity.
  rewrite !forallb_app, Hs, andb_false_r. cbn [andb].
  rewrite rev_app_distr.
  change (rev [Char.slash] ++ rev (pre ++ lit "search"))
    with (Char.slash :: rev (pre ++ lit "search")).
  cbn [drop_slashes]. rewrite N.eqb_refl, drop_slashes_search.
  apply rev_involutive.
Qed.

Lemma path_join_relative a :
  exists pre, forall b, starts_with_slash b = false -> path_join a b = pre ++ b.
Proof.
  unfold path_join. destruct (rev a) as [|x r].
  - exists []. intros b' ->. reflexivity.
  - destruct (x =? Char.slash).
    + exists a. intros b' ->. reflexivity.
    + exists (a ++ [Char.slash]). intros b' ->. rewrite <- app_assoc. reflexivity.
Qed.

Lemma key_text_no_slash q :
  exists rest, cache_key_text E q = lit "search/" ++ rest
               /\ Forall (fun c => c <> Char.slash) rest.
Proof.
  eexists. split; [reflexivity|]. apply collapse_Forall.
  assert (Hk : forall c, key_char c = true -> c <> Char.slash)
    by (intros c Hc ->; discriminate Hc).
  apply Forall_app. split.
  - eapply Forall_impl; [apply sanitize_chars|]. exact Hk.
  - apply Forall_app. split; [repeat constructor; discriminate|].
    eapply Forall_impl; [apply hash_chars|]. cbn. intros c [Hc _]. exact (Hk c Hc).
Qed.
End Directory.

Lemma key_dir_fixed (E : Env) (q : basestring) :
  dirname (cachefile E (cache_key_text E q)) = cachefile E (lit "search").
Proof.
  destruct (key_text_no_slash E q) as (rest & Hkey & Hrest). rewrite Hkey.
  unfold cachefile.
  destruct (path_join_relative (cachedir E)) as (pre & Hpre).
  rewrite (Hpre (lit "search/" ++ rest) eq_refl), (Hpre (lit "search") eq_refl).
  apply dirname_in_search. exact Hrest.
Qed.

(** X21: every key lies in the one directory [search] under the cache
    directory, whatever the query: the directory [cache_key] makes sure of is
    always [wf.cachefile('search')].  So once [cache_key] has returned for
    one query, it returns for every query without touching the filesystem. *)
Theorem one_cache_directory (E : Env) (q : basestring) :
  dirname (cachefile E (cache_key_text E q)) = cachefile E (lit "search")
  /\ (forall w k q2,
         returns (cache_key E q) w k ->
         cache_key E q2 (snd (cache_key E q w))
         = (inr (cache_key_text E q2), snd (cache_key E q w))).
Proof.
  split; [apply key_dir_fixed|].
  intros w k q2 Hk. unfold returns in Hk.
  rewrite (cache_key_run E q2). rewrite (cache_key_run E q) in *. cbv zeta in *.
  rewrite !key_dir_fixed in *.
  destruct (bool_decide (cachefile E (lit "search") ∈ dirs w)) eqn:Hd.
  - cbn [snd]. rewrite Hd. reflexivity.
  - destruct (makedirs_ok E _); [|discriminate].
    cbn [snd set_dirs dirs].
    rewrite bool_decide_true
      by (apply elem_of_union_r, elem_of_singleton; reflexivity).
    reflexivity.
Qed.

(** ** The cache and the network *)

(** X19: while the entry is valid the run does not depend on the network:
    whatever the remote end would answer, [do_search] ends the same way. *)
Theorem hit_ignores_server (E : Env) (s : Request -> result Response)
        (args : ustring) (w : World) (written : Z) (data : answers) :
  dir_ready E args (started E w) = true ->
  cache w !! search_key E args = Some (written, data) ->
  (now w - written < CACHE_MAX_AGE E)%Z ->
  do_search (with_server E s) args w = do_search E args w.
Proof.
  intros Hd Hc Hage.
  rewrite (do_search_hit E args w written data Hd Hc Hage).
  rewrite (do_search_hit (with_server E s) args w written data);
    [reflexivity|exact Hd|exact Hc|exact Hage].
Qed.

Lemma hit_ignores_server_witness :
  let E := Demo.env false 200 (Some (Demo.payload Demo.bugs)) in
  let w := Demo.world_with 119 (search_key E (lit "bugs")) 100 Demo.stored in
  do_search (with_server E (fun _ => inl URLError)) (lit "bugs") w
  = do_search E (lit "bugs") w.
Proof.
  intros E w.
  assert (Hd : dir_ready E (lit "bugs") (started E w) = true) by (vm_compute; reflexivity).
  assert (Hc : cache w !! search_key E (lit "bugs") = Some (100%Z, Demo.stored))
    by (vm_compute; reflexivity).
  assert (Hn : (now w - 100 < CACHE_MAX_AGE E)%Z) by (vm_compute; reflexivity).
  exact (hit_ignores_server E _ (lit "bugs") w 100 Demo.stored Hd Hc Hn).
Defined.

(** X20: the value of [sites] is iterated whatever its type: a list gives
    the mapped and sorted records (or the first record's error); an empty
    object or empty text gives an empty list; a non-empty object or text
    raises [TypeError], as its elements are texts; anything else cannot
    be iterated and raises [TypeError]. *)
Theorem sites_is_iterated (E : Env) (query : ustring) (limit : Z) (w : World)
        (r : Response) (data v : pyval) :
  server E (search_request E query limit) = inr r ->
  success r = true ->
  json_body r = Some data ->
  truthy data = true ->
  getitem data (lit "sites") = inr v ->
  fst (get_answers E query limit w) = answers_from_sites E v.
Proof.
  intros Hs Hok Hj Ht Hv. rewrite get_answers_run. cbn [fst].
  unfold fetched, rbind. rewrite Hs, Hok, Hj, Ht. cbn [negb].
  unfold api_records, rbind. rewrite Hv.
  destruct v as [| | | |s|l|d]; try reflexivity.
  - destruct s; reflexivity.
  - cbn [py_iter answers_from_sites].
    destruct (rmap (handle_answer E) l); reflexivity.
  - destruct d as [|[k x] d']; reflexivity.
Qed.

Lemma sites_is_iterated_witness :
  let data := PDict [(lit "sites", PDict [(lit "a", PInt 1)])] in
  let E := Demo.env false 200 (Some data) in
  fst (get_answers E (lit "x") 50 (Demo.world 0)) = inl TypeError.
Proof.
  intros data E.
  exact (sites_is_iterated E (lit "x") 50 (Demo.world 0)
           (mkResponse 200 (Some data)) data (PDict [(lit "a", PInt 1)])
           eq_refl eq_refl eq_refl eq_refl eq_refl).
Defined.
